(** * IIC generation (package [iic], file [iic.go])

    A shallow embedding of the Invoice Identification Code generator and of
    the parts of its collaborators that the generator relies on:

    - [hex], [md5], [sha256], [fmt]: the Go standard library primitives used
      by [GenerateIIC] (lowercase hex rendering, the two digests, the
      [Sprintf] verbs that occur in the source);
    - [etree]: the in-memory XML document of [github.com/beevik/etree], as far
      as [parse] and [WriteIIC] touch it;
    - the signing device ([safenet.SafeNet]) and the file system, as
      interfaces that the functions are parametrised by;
    - [attributeOfElement], [parse], [GenerateIIC], [WriteIIC]: the functions
      of [iic.go], written in a state monad over the world they act on.

    Part I holds the definitions, Part II the theory. *)

From Stdlib Require Import ZArith List String Ascii Bool Lia.
From Stdlib Require Import Strings.Byte DecimalString.
Import ListNotations.

Set Implicit Arguments.

(* ================================================================== *)
(** * Part I: definitions *)
(* ================================================================== *)

(** ** Byte strings

    A Go [[]byte] is a [list byte]; a Go [string] is a [String.string], whose
    characters are the string's bytes. *)

Definition bytes := list byte.

Definition byte_of_Z (z : Z) : byte :=
  match Byte.of_N (Z.to_N (z mod 256)) with
  | Some b => b
  | None => x00
  end.

Definition Z_of_byte (b : byte) : Z := Z.of_N (Byte.to_N b).

(** [[]byte(s)] *)
Definition bytes_of_string (s : string) : bytes := list_byte_of_string s.

(** [string(b)] *)
Definition string_of_bytes (b : bytes) : string := string_of_list_byte b.

(** ** 32-bit words

    A [uint32] is a [Z] in [[0, 2^32)]; every operation that can leave that
    range wraps explicitly. *)

Module u32.
Local Open Scope Z_scope.

Definition wrap (z : Z) : Z := z mod 2 ^ 32.
Definition add (a b : Z) : Z := wrap (a + b).
Definition not (a : Z) : Z := Z.lxor a 0xffffffff.
Definition shl (a n : Z) : Z := wrap (Z.shiftl a n).
Definition shr (a n : Z) : Z := Z.shiftr a n.

(** [bits.RotateLeft32(x, k)]; a negative [k] rotates right. *)
Definition RotateLeft32 (x k : Z) : Z :=
  let s := k mod 32 in
  Z.lor (shl x s) (shr x (32 - s)).

(** [binary.LittleEndian.Uint32] and [PutUint32] *)
Definition of_le (b : bytes) : Z :=
  match b with
  | [b0; b1; b2; b3] =>
      Z.lor (Z_of_byte b0)
        (Z.lor (Z.shiftl (Z_of_byte b1) 8)
           (Z.lor (Z.shiftl (Z_of_byte b2) 16) (Z.shiftl (Z_of_byte b3) 24)))
  | _ => 0
  end.

Definition to_le (w : Z) : bytes :=
  [byte_of_Z w; byte_of_Z (Z.shiftr w 8);
   byte_of_Z (Z.shiftr w 16); byte_of_Z (Z.shiftr w 24)].

(** [binary.BigEndian.Uint32] and [PutUint32] *)
Definition of_be (b : bytes) : Z := of_le (rev b).
Definition to_be (w : Z) : bytes := rev (to_le w).

(** [PutUint64] of a bit length, in either byte order. *)
Definition len_le (n : Z) : bytes :=
  to_le (wrap n) ++ to_le (wrap (Z.shiftr (n mod 2 ^ 64) 32)).
Definition len_be (n : Z) : bytes := rev (len_le n).
End u32.

(** Cuts the first [n] blocks of [size] bytes off a message. *)
Fixpoint chunks (size n : nat) (l : bytes) : list bytes :=
  match n with
  | O => []
  | S k => firstn size l :: chunks size k (skipn size l)
  end.

(** The 16 words of a 64-byte block, read with [rd]. *)
Definition words_of_block (rd : bytes -> Z) (blk : bytes) : list Z :=
  map rd (chunks 4 16 blk).

(** ** crypto/md5 (RFC 1321) *)

Module md5.
Local Open Scope Z_scope.

Definition Size : nat := 16.

Definition T : list Z :=
  [0xd76aa478; 0xe8c7b756; 0x242070db; 0xc1bdceee; 0xf57c0faf; 0x4787c62a;
   0xa8304613; 0xfd469501; 0x698098d8; 0x8b44f7af; 0xffff5bb1; 0x895cd7be;
   0x6b901122; 0xfd987193; 0xa679438e; 0x49b40821; 0xf61e2562; 0xc040b340;
   0x265e5a51; 0xe9b6c7aa; 0xd62f105d; 0x02441453; 0xd8a1e681; 0xe7d3fbc8;
   0x21e1cde6; 0xc33707d6; 0xf4d50d87; 0x455a14ed; 0xa9e3e905; 0xfcefa3f8;
   0x676f02d9; 0x8d2a4c8a; 0xfffa3942; 0x8771f681; 0x6d9d6122; 0xfde5380c;
   0xa4beea44; 0x4bdecfa9; 0xf6bb4b60; 0xbebfbc70; 0x289b7ec6; 0xeaa127fa;
   0xd4ef3085; 0x04881d05; 0xd9d4d039; 0xe6db99e5; 0x1fa27cf8; 0xc4ac5665;
   0xf4292244; 0x432aff97; 0xab9423a7; 0xfc93a039; 0x655b59c3; 0x8f0ccc92;
   0xffeff47d; 0x85845dd1; 0x6fa87e4f; 0xfe2ce6e0; 0xa3014314; 0x4e0811a1;
   0xf7537e82; 0xbd3af235; 0x2ad7d2bb; 0xeb86d391].

Definition shifts : list Z :=
  [7; 12; 17; 22; 7; 12; 17; 22; 7; 12; 17; 22; 7; 12; 17; 22;
   5; 9; 14; 20; 5; 9; 14; 20; 5; 9; 14; 20; 5; 9; 14; 20;
   4; 11; 16; 23; 4; 11; 16; 23; 4; 11; 16; 23; 4; 11; 16; 23;
   6; 10; 15; 21; 6; 10; 15; 21; 6; 10; 15; 21; 6; 10; 15; 21].

Record digest := mkDigest { s0 : Z; s1 : Z; s2 : Z; s3 : Z }.

Definition init : digest :=
  mkDigest 0x67452301 0xefcdab89 0x98badcfe 0x10325476.

(** One of the 64 operations of a block: the round function and the
    message word it consumes depend on the round [i / 16]. *)
Definition step (x : list Z) (st : digest) (i : nat) : digest :=
  let '(mkDigest a b c d) := st in
  let zi := Z.of_nat i in
  let '(f, g) :=
    match (i / 16)%nat with
    | 0%nat => (Z.lor (Z.land b c) (Z.land (u32.not b) d), zi)
    | 1%nat => (Z.lor (Z.land d b) (Z.land (u32.not d) c), (5 * zi + 1) mod 16)
    | 2%nat => (Z.lxor b (Z.lxor c d), (3 * zi + 5) mod 16)
    | _ => (Z.lxor c (Z.lor b (u32.not d)), (7 * zi) mod 16)
    end in
  let t := u32.add (u32.add (u32.add a f) (nth i T 0)) (nth (Z.to_nat g) x 0) in
  mkDigest d (u32.add b (u32.RotateLeft32 t (nth i shifts 0))) b c.

Definition block (st : digest) (blk : bytes) : digest :=
  let x := words_of_block u32.of_le blk in
  let '(mkDigest a b c d) := fold_left (step x) (seq 0 64) st in
  mkDigest (u32.add (s0 st) a) (u32.add (s1 st) b)
           (u32.add (s2 st) c) (u32.add (s3 st) d).

(** [0x80], zeros up to 56 modulo 64, then the bit length, little endian. *)
Definition pad (msg : bytes) : bytes :=
  let len := Z.of_nat (List.length msg) in
  msg ++ x80 :: repeat x00 (Z.to_nat ((55 - len) mod 64))
      ++ u32.len_le (8 * len).

Definition output (st : digest) : bytes :=
  u32.to_le (s0 st) ++ u32.to_le (s1 st) ++ u32.to_le (s2 st) ++ u32.to_le (s3 st).

Definition Sum (msg : bytes) : bytes :=
  let p := pad msg in
  output (fold_left block (chunks 64 (List.length p / 64) p) init).
End md5.

(** ** crypto/sha256 (FIPS 180-4) *)

Module sha256.
Local Open Scope Z_scope.

Definition Size : nat := 32.

(** The constants of FIPS 180-4: the first 32 bits of the fractional parts
    of the cube roots of the first 64 primes, and, for the initial hash
    value, of the square roots of the first 8 primes. *)
Definition is_prime (n : Z) : bool :=
  forallb (fun d => negb (n mod Z.of_nat d =? 0)) (seq 2 (Z.to_nat n - 2)).

Definition primes (k : nat) : list Z :=
  firstn k (filter is_prime (map Z.of_nat (seq 2 310))).

(** The integer cube root, one bit at a time from bit 40 down. *)
Definition cbrt (n : Z) : Z :=
  fold_left (fun r k => let c := r + 2 ^ Z.of_nat k in
                        if c * c * c <=? n then c else r)
            (rev (seq 0 41)) 0.

Definition K : list Z :=
  Eval vm_compute in map (fun q => cbrt (q * 2 ^ 96) mod 2 ^ 32) (primes 64).

Record digest := mkDigest
  { h0 : Z; h1 : Z; h2 : Z; h3 : Z; h4 : Z; h5 : Z; h6 : Z; h7 : Z }.

Definition init : digest :=
  Eval vm_compute in
    match map (fun q => Z.sqrt (q * 2 ^ 64) mod 2 ^ 32) (primes 8) with
    | [a; b; c; d; e; f; g; h] => mkDigest a b c d e f g h
    | _ => mkDigest 0 0 0 0 0 0 0 0
    end.

(** The message schedule: word [i >= 16] from the words before it. *)
Definition extend (w : list Z) (i : nat) : list Z :=
  let v1 := nth (i - 2) w 0 in
  let t1 := Z.lxor (u32.RotateLeft32 v1 (-17))
              (Z.lxor (u32.RotateLeft32 v1 (-19)) (u32.shr v1 10)) in
  let v2 := nth (i - 15) w 0 in
  let t2 := Z.lxor (u32.RotateLeft32 v2 (-7))
              (Z.lxor (u32.RotateLeft32 v2 (-18)) (u32.shr v2 3)) in
  w ++ [u32.add (u32.add (u32.add t1 (nth (i - 7) w 0)) t2) (nth (i - 16) w 0)].

Definition schedule (blk : bytes) : list Z :=
  fold_left extend (seq 16 48) (words_of_block u32.of_be blk).

Definition round (w : list Z) (st : digest) (i : nat) : digest :=
  let '(mkDigest a b c d e f g h) := st in
  let t1 :=
    u32.add (u32.add (u32.add (u32.add h
      (Z.lxor (u32.RotateLeft32 e (-6))
         (Z.lxor (u32.RotateLeft32 e (-11)) (u32.RotateLeft32 e (-25)))))
      (Z.lxor (Z.land e f) (Z.land (u32.not e) g)))
      (nth i K 0)) (nth i w 0) in
  let t2 :=
    u32.add
      (Z.lxor (u32.RotateLeft32 a (-2))
         (Z.lxor (u32.RotateLeft32 a (-13)) (u32.RotateLeft32 a (-22))))
      (Z.lxor (Z.land a b) (Z.lxor (Z.land a c) (Z.land b c))) in
  mkDigest (u32.add t1 t2) a b c (u32.add d t1) e f g.

Definition block (st : digest) (blk : bytes) : digest :=
  let w := schedule blk in
  let '(mkDigest a b c d e f g h) := fold_left (round w) (seq 0 64) st in
  mkDigest (u32.add (h0 st) a) (u32.add (h1 st) b)
           (u32.add (h2 st) c) (u32.add (h3 st) d)
           (u32.add (h4 st) e) (u32.add (h5 st) f)
           (u32.add (h6 st) g) (u32.add (h7 st) h).

(** [0x80], zeros up to 56 modulo 64, then the bit length, big endian. *)
Definition pad (msg : bytes) : bytes :=
  let len := Z.of_nat (List.length msg) in
  msg ++ x80 :: repeat x00 (Z.to_nat ((55 - len) mod 64))
      ++ u32.len_be (8 * len).

Definition output (st : digest) : bytes :=
  u32.to_be (h0 st) ++ u32.to_be (h1 st) ++ u32.to_be (h2 st)
    ++ u32.to_be (h3 st) ++ u32.to_be (h4 st) ++ u32.to_be (h5 st)
    ++ u32.to_be (h6 st) ++ u32.to_be (h7 st).

Definition Sum (msg : bytes) : bytes :=
  let p := pad msg in
  output (fold_left block (chunks 64 (List.length p / 64) p) init).
End sha256.

(** ** Lowercase hexadecimal, as printed by the [%x] verb *)

Module hex.
Definition ldigits : string := "0123456789abcdef".

Definition digit (n : N) : ascii :=
  match String.get (N.to_nat n) ldigits with
  | Some c => c
  | None => "0"%char
  end.

(** Two digits per byte, high nibble first. *)
Fixpoint EncodeToString (b : bytes) : string :=
  match b with
  | [] => EmptyString
  | c :: rest =>
      String (digit (N.shiftr (Byte.to_N c) 4))
        (String (digit (N.land (Byte.to_N c) 15)) (EncodeToString rest))
  end.

Definition is_lower_hex (c : ascii) : bool :=
  existsb (Ascii.eqb c) (list_ascii_of_string ldigits).

(** The value of a hex digit, of either case, as [encoding/hex] reads it. *)
Definition fromHexChar (c : ascii) : option N :=
  let n := N_of_ascii c in
  if (48 <=? n)%N && (n <=? 57)%N then Some (n - 48)%N
  else if (97 <=? n)%N && (n <=? 102)%N then Some (n - 87)%N
  else if (65 <=? n)%N && (n <=? 70)%N then Some (n - 55)%N
  else None.

(** [hex.DecodeString]: [None] for a string of odd length or with a
    character that is no hex digit. *)
Fixpoint DecodeString (s : string) : option bytes :=
  match s with
  | EmptyString => Some []
  | String _ EmptyString => None
  | String hi (String lo rest) =>
      match fromHexChar hi, fromHexChar lo, DecodeString rest with
      | Some h, Some l, Some b =>
          match Byte.of_N (h * 16 + l) with
          | Some c => Some (c :: b)
          | None => None
          end
      | _, _, _ => None
      end
  end.
End hex.

(** ** Go errors and the [hash.Hash] interface

    An [error] is modelled by its message; the [nil] error is [None]. *)

Definition error := string.

Module crypto.
Inductive Hash := MD5 | SHA256.

(** A running [hash.Hash]: its algorithm and the bytes written so far. *)
Record hasher := mkHasher { alg : Hash; written : bytes }.

Definition New (h : Hash) : hasher := mkHasher h [].

(** [Write] adds data to the running hash and, as package [hash]
    documents, never returns an error; it returns the number of bytes
    written along with that [nil]. *)
Definition Write (h : hasher) (p : bytes) : hasher * (nat * option error) :=
  (mkHasher (alg h) (written h ++ p), (List.length p, None)).

(** [Sum(b)] appends the current hash to [b]. *)
Definition Sum (h : hasher) (b : bytes) : bytes :=
  b ++ match alg h with
       | MD5 => md5.Sum (written h)
       | SHA256 => sha256.Sum (written h)
       end.
End crypto.

(** ** Package [fmt]

    [Sprintf] on string and byte-slice operands, with the verbs [%v], [%s]
    and [%x] and the literal [%%]. Flags, widths, precisions, explicit
    argument indexes and the other verbs are not modelled; the format strings
    of [iic.go] use none of them. A verb without an operand and operands
    without a verb are reported in the output the way [fmt] reports them. *)

Module fmt.
Local Open Scope string_scope.

Inductive operand := Str (s : string) | Bytes (b : bytes).

Definition typeName (o : operand) : string :=
  match o with
  | Str _ => "string"
  | Bytes _ => "[]uint8"
  end.

Definition decimal (n : N) : string := NilZero.string_of_uint (N.to_uint n).

(** The operand under [%v]. *)
Definition printValue (o : operand) : string :=
  match o with
  | Str s => s
  | Bytes b =>
      "[" ++ String.concat " " (map (fun c => decimal (Byte.to_N c)) b) ++ "]"
  end.

Definition badVerb (verb : ascii) (o : operand) : string :=
  "%!" ++ String verb ("(" ++ typeName o ++ "=" ++ printValue o ++ ")").

Definition printArg (o : operand) (verb : ascii) : string :=
  if (verb =? "v")%char then printValue o
  else if (verb =? "s")%char then
    match o with
    | Str s => s
    | Bytes b => string_of_bytes b
    end
  else if (verb =? "x")%char then
    match o with
    | Str s => hex.EncodeToString (bytes_of_string s)
    | Bytes b => hex.EncodeToString b
    end
  else badVerb verb o.

Definition missingArg (verb : ascii) : string :=
  "%!" ++ String verb "(MISSING)".

(** Operands left over once the format is exhausted. *)
Definition extra (a : list operand) : string :=
  match a with
  | [] => ""
  | _ =>
      "%!(EXTRA "
        ++ String.concat ", " (map (fun o => typeName o ++ "=" ++ printValue o) a)
        ++ ")"
  end.

Fixpoint doPrintf (format : string) (a : list operand) : string :=
  match format with
  | EmptyString => extra a
  | String c rest =>
      if (c =? "%")%char then
        match rest with
        | EmptyString => "%!(NOVERB)" ++ extra a
        | String verb rest' =>
            if (verb =? "%")%char then String "%" (doPrintf rest' a)
            else
              match a with
              | [] => missingArg verb ++ doPrintf rest' []
              | o :: a' => printArg o verb ++ doPrintf rest' a'
              end
        end
      else String c (doPrintf rest a)
  end.

Definition Sprintf (format : string) (a : list operand) : string :=
  doPrintf format a.

(** [Errorf] builds the error whose message is the formatted string. *)
Definition Errorf (format : string) (a : list operand) : error :=
  Sprintf format a.
End fmt.

(** ** Package [etree]

    Modelled from the spec: [github.com/beevik/etree] is an external package
    that is not part of the repository. The spec requires of it "locate a
    node by a path-like selector; read/remove/set a named attribute on a
    node", with the first match winning. The model keeps what [iic.go]
    observes of a document: the elements, in the order in which a descendant
    search visits them, each with its name and its attribute list. A pointer
    to an element is its position in that sequence. Text, comments and the
    nesting of elements are not modelled: [iic.go] neither reads nor changes
    them, apart from the indentation it sets before saving. *)

Module etree.
Local Open Scope string_scope.

Record Attr := mkAttr { Space : string; Key : string; Value : string }.

Record Element := mkElement
  { ESpace : string; Tag : string; Attrs : list Attr }.

Definition Document := list Element.

(** [*Element]: a position in the document. *)
Definition ptr := nat.

Definition load (doc : Document) (p : ptr) : Element :=
  nth p doc (mkElement "" "" []).

Fixpoint update (p : ptr) (f : Element -> Element) (doc : Document) : Document :=
  match doc, p with
  | [], _ => []
  | e :: rest, O => f e :: rest
  | e :: rest, S q => e :: update q f rest
  end.

(** Splits [prefix:name] at the first colon. *)
Fixpoint cut (str : string) : option (string * string) :=
  match str with
  | EmptyString => None
  | String c rest =>
      if (c =? ":")%char then Some ("", rest)
      else match cut rest with
           | Some (a, b) => Some (String c a, b)
           | None => None
           end
  end.

Definition spaceDecompose (str : string) : string * string :=
  match cut str with
  | Some p => p
  | None => ("", str)
  end.

(** A key without prefix matches in every namespace. *)
Definition spaceMatch (a b : string) : bool :=
  if a =? "" then true else a =? b.

Fixpoint find_index {A : Type} (f : A -> bool) (l : list A) : option nat :=
  match l with
  | [] => None
  | x :: rest => if f x then Some O else option_map S (find_index f rest)
  end.

(** Modelled from the spec: [doc.FindElement(path)] of the external package
    etree ("find(selector) -> Node?", first match wins), for a path of the
    form [//tag], the only form in [iic.go]: the first element with that
    tag, or [nil]. *)
Definition FindElement (path : string) (doc : Document) : option ptr :=
  match path with
  | String c1 (String c2 name) =>
      if ((c1 =? "/") && (c2 =? "/"))%char then
        let '(space, tag) := spaceDecompose name in
        find_index (fun e => spaceMatch space (ESpace e) && (tag =? Tag e)) doc
      else None
  | _ => None
  end.

Definition selects (key : string) (a : Attr) : bool :=
  let '(space, skey) := spaceDecompose key in
  spaceMatch space (Space a) && (skey =? Key a).

(** Modelled from the spec: [e.SelectAttr(key)] of the external package
    etree ("Node.getAttribute(name) -> string?"): the first attribute
    matching the key, or [nil]. *)
Definition SelectAttr (key : string) (e : Element) : option Attr :=
  find (selects key) (Attrs e).

Definition same_name (space key : string) (a : Attr) : bool :=
  (space =? Space a) && (key =? Key a).

Fixpoint remove_first (f : Attr -> bool) (l : list Attr) : list Attr :=
  match l with
  | [] => []
  | a :: rest => if f a then rest else a :: remove_first f rest
  end.

(** Modelled from the spec: [e.RemoveAttr(key)] of the external package
    etree ("remove a named attribute on a node"): removes the first
    attribute with that name. *)
Definition RemoveAttr (key : string) (e : Element) : Element :=
  let '(space, skey) := spaceDecompose key in
  mkElement (ESpace e) (Tag e) (remove_first (same_name space skey) (Attrs e)).

Fixpoint createAttr (space key value : string) (l : list Attr) : list Attr :=
  match l with
  | [] => [mkAttr space key value]
  | a :: rest =>
      if same_name space key a then mkAttr (Space a) (Key a) value :: rest
      else a :: createAttr space key value rest
  end.

(** Modelled from the spec: [e.CreateAttr(key, value)] of the external
    package etree ("set a named attribute on a node"): replaces the value
    of the attribute with that name if there is one, and appends a new
    attribute otherwise. *)
Definition CreateAttr (key value : string) (e : Element) : Element :=
  let '(space, skey) := spaceDecompose key in
  mkElement (ESpace e) (Tag e) (createAttr space skey value (Attrs e)).

(** The name of an attribute, and the attributes of a list that have, or
    have not, a given name. *)
Definition name (a : Attr) : string * string := (Space a, Key a).

Definition named (space key : string) (l : list Attr) : list Attr :=
  filter (same_name space key) l.

Definition without (space key : string) (l : list Attr) : list Attr :=
  filter (fun a => negb (same_name space key a)) l.

Fixpoint distinct (l : list Attr) : bool :=
  match l with
  | [] => true
  | a :: rest =>
      negb (existsb (same_name (Space a) (Key a)) rest) && distinct rest
  end.

(** No two attributes of the element have the same name, as in every
    element that comes out of an XML parser. *)
Definition wellformed (e : Element) : bool := distinct (Attrs e).

(** [doc.Root()]: the root element, the first one a search visits. *)
Definition Root (doc : Document) : option ptr :=
  match doc with
  | [] => None
  | _ :: _ => Some O
  end.
End etree.

(** ** The collaborators of package [iic]

    The signing device behind [safenet.SafeNet] and the file system behind
    [Document.ReadFromFile] and [Document.WriteToFile] are interfaces: a state
    and the operations on it. *)

Module safenet.
Class SafeNet (Config Dev : Type) := {
  (** opens the signing session *)
  Initialize : Config -> Dev -> Dev * option error;
  (** signs a digest, PKCS#1 v1.5 *)
  SignPKCS1v15 : bytes -> Dev -> Dev * (bytes * option error);
  (** closes the session *)
  Finalize : Dev -> Dev
}.
End safenet.

Module docio.
Class DocumentIO (FS : Type) := {
  (** loads and parses the file at a path *)
  ReadFromFile : string -> FS -> etree.Document * option error;
  (** serialises a document to the file at a path *)
  WriteToFile : string -> etree.Document -> FS -> FS * option error
}.
End docio.

(** ** [[7]string] *)

Record array7 := mkArray7
  { at0 : string; at1 : string; at2 : string; at3 : string;
    at4 : string; at5 : string; at6 : string }.

Inductive index7 := I0 | I1 | I2 | I3 | I4 | I5 | I6.

Definition get (a : array7) (i : index7) : string :=
  match i with
  | I0 => at0 a | I1 => at1 a | I2 => at2 a | I3 => at3 a
  | I4 => at4 a | I5 => at5 a | I6 => at6 a
  end.

Definition set (a : array7) (i : index7) (v : string) : array7 :=
  let '(mkArray7 a0 a1 a2 a3 a4 a5 a6) := a in
  match i with
  | I0 => mkArray7 v a1 a2 a3 a4 a5 a6
  | I1 => mkArray7 a0 v a2 a3 a4 a5 a6
  | I2 => mkArray7 a0 a1 v a3 a4 a5 a6
  | I3 => mkArray7 a0 a1 a2 v a4 a5 a6
  | I4 => mkArray7 a0 a1 a2 a3 v a5 a6
  | I5 => mkArray7 a0 a1 a2 a3 a4 v a6
  | I6 => mkArray7 a0 a1 a2 a3 a4 a5 v
  end.

(** [[7]string{}], the zero value. *)
Definition zero7 : array7 :=
  mkArray7 EmptyString EmptyString EmptyString EmptyString
           EmptyString EmptyString EmptyString.

Definition to_list (a : array7) : list string :=
  [at0 a; at1 a; at2 a; at3 a; at4 a; at5 a; at6 a].

(** The array with the values at two positions exchanged. *)
Definition swap (a : array7) (i j : index7) : array7 :=
  set (set a i (get a j)) j (get a i).

(** [strings.HasPrefix(s, prefix)] and [strings.Contains(s, substr)] *)
Fixpoint HasPrefix (s prefix : string) {struct prefix} : bool :=
  match prefix, s with
  | EmptyString, _ => true
  | String _ _, EmptyString => false
  | String a prefix', String b s' => (a =? b)%char && HasPrefix s' prefix'
  end.

Fixpoint contains (s substr : string) : bool :=
  match s with
  | EmptyString => HasPrefix s substr
  | String _ rest => HasPrefix s substr || contains rest substr
  end.

(** ** Field extraction: [mapElement], [mapAttrib], [attributeOfElement],
    [parse]

    These functions only read the document. A Go function returning
    [(string, error)] returns a pair here. *)

Section FieldExtractor.
Import etree.
Local Open Scope string_scope.

Definition mapElement (elemName : string) (doc : Document)
    (closure : ptr -> string * option error) : string * option error :=
  match FindElement elemName doc with
  | None => ("", Some (fmt.Errorf "can't find element %s" [fmt.Str elemName]))
  | Some elem => closure elem
  end.

Definition mapAttrib (attrName : string) (elem : Element)
    (closure : Attr -> string * option error) : string * option error :=
  match SelectAttr attrName elem with
  | None => ("", Some (fmt.Errorf "can't find attribute %s" [fmt.Str attrName]))
  | Some attr => closure attr
  end.

Definition attributeOfElement (elemName attrName : string) (doc : Document)
    : string * option error :=
  mapElement elemName doc (fun elem =>
    mapAttrib attrName (load doc elem) (fun attr => (Value attr, None))).

Definition parse (doc : Document) : array7 * option error :=
  let '(TIN, err) := attributeOfElement "//Seller" "IDNum" doc in
  match err with Some e => (zero7, Some e) | None =>
  let '(IssueDateTime, err) := attributeOfElement "//Invoice" "IssueDateTime" doc in
  match err with Some e => (zero7, Some e) | None =>
  let '(InvOrdNum, err) := attributeOfElement "//Invoice" "InvOrdNum" doc in
  match err with Some e => (zero7, Some e) | None =>
  let '(BusinUnitCode, err) := attributeOfElement "//Invoice" "BusinUnitCode" doc in
  match err with Some e => (zero7, Some e) | None =>
  let '(TCRCode, err) := attributeOfElement "//Invoice" "TCRCode" doc in
  match err with Some e => (zero7, Some e) | None =>
  let '(SoftCode, err) := attributeOfElement "//Invoice" "SoftCode" doc in
  match err with Some e => (zero7, Some e) | None =>
  let '(TotPrice, err) := attributeOfElement "//Invoice" "TotPrice" doc in
  match err with Some e => (zero7, Some e) | None =>
  (mkArray7 TIN IssueDateTime InvOrdNum BusinUnitCode TCRCode SoftCode TotPrice,
   None)
  end end end end end end end.

(** The element and attribute behind each of the seven fields, in the
    order in which [parse] reads them. *)
Definition locators : list (string * string) :=
  [("//Seller", "IDNum"); ("//Invoice", "IssueDateTime");
   ("//Invoice", "InvOrdNum"); ("//Invoice", "BusinUnitCode");
   ("//Invoice", "TCRCode"); ("//Invoice", "SoftCode");
   ("//Invoice", "TotPrice")].

(** The locator of the field at each position of the array. *)
Definition locator (i : index7) : string * string :=
  match i with
  | I0 => ("//Seller", "IDNum")
  | I1 => ("//Invoice", "IssueDateTime")
  | I2 => ("//Invoice", "InvOrdNum")
  | I3 => ("//Invoice", "BusinUnitCode")
  | I4 => ("//Invoice", "TCRCode")
  | I5 => ("//Invoice", "SoftCode")
  | I6 => ("//Invoice", "TotPrice")
  end.

(** An attribute that is neither of the two codes. *)
Definition not_a_code (a : Attr) : bool :=
  negb (same_name "" "IIC" a) && negb (same_name "" "IICSignature" a).

(** The document lacks the element of a locator, or the element lacks
    the attribute. *)
Definition absent (doc : Document) (loc : string * string) : bool :=
  match FindElement (fst loc) doc with
  | None => true
  | Some elem =>
      match SelectAttr (snd loc) (load doc elem) with
      | None => true
      | Some _ => false
      end
  end.

(** An in-place change of the element a path finds; dereferencing the
    [nil] that [FindElement] returns for no match panics ([None]). *)
Definition through (path : string) (f : Element -> Element) (doc : Document)
    : option Document :=
  match FindElement path doc with
  | None => None
  | Some elem => Some (update elem f doc)
  end.

(** What the four calls of the "Save" step make of the element they all
    find. *)
Definition saved (IIC IICSignature : string) (e : Element) : Element :=
  CreateAttr "IICSignature" IICSignature
    (RemoveAttr "IICSignature" (CreateAttr "IIC" IIC (RemoveAttr "IIC" e))).

(** The "Save" step of [WriteIIC], up to the indentation. *)
Definition embed (IIC IICSignature : string) (doc : Document) : option Document :=
  match through "//Invoice" (RemoveAttr "IIC") doc with None => None | Some doc =>
  match through "//Invoice" (CreateAttr "IIC" IIC) doc with None => None | Some doc =>
  match through "//Invoice" (RemoveAttr "IICSignature") doc with None => None | Some doc =>
  through "//Invoice" (CreateAttr "IICSignature" IICSignature) doc
  end end end.
End FieldExtractor.

(** The plaintext of the code, the first [Sprintf] of [GenerateIIC]. *)
Definition plainIIC (params : array7) : string :=
  fmt.Sprintf "%v|%v|%v|%v|%v|%v|%v"
    [fmt.Str (get params I0);  (* TIN *)
     fmt.Str (get params I1);  (* IssueDateTime *)
     fmt.Str (get params I2);  (* InvOrdNum *)
     fmt.Str (get params I3);  (* BusinUnitCode *)
     fmt.Str (get params I4);  (* TCRCode *)
     fmt.Str (get params I5);  (* SoftCode *)
     fmt.Str (get params I6)]  (* TotPrice *).

(** None of the first six fields, the ones that a delimiter follows,
    contains the delimiter. *)
Definition delimiter_free (params : array7) : bool :=
  forallb (fun s => negb (contains s "|"))
    [get params I0; get params I1; get params I2;
     get params I3; get params I4; get params I5].

(** The digest that [GenerateIIC] hands to the signer: SHA-256 of the
    plaintext's bytes. *)
Definition sha256IIC (params : array7) : bytes :=
  crypto.Sum (fst (crypto.Write (crypto.New crypto.SHA256)
                                (bytes_of_string (plainIIC params)))) [].

(** ** [GenerateIIC] and [WriteIIC]

    Both act on a world: the signing device, the file system, and the trace
    of what has been asked of them and printed so far. *)

Section Generator.
Context {Config Dev FS : Type}.
Context {signer : safenet.SafeNet Config Dev} {io : docio.DocumentIO FS}.
Local Open Scope string_scope.

Inductive Event :=
| EvInitialize (cfg : Config)
| EvSignPKCS1v15 (digest : bytes)
| EvFinalize
| EvStdout (s : string)
| EvReadFromFile (path : string)
| EvWriteToFile (path : string) (doc : etree.Document).

Record World := mkWorld { device : Dev; disk : FS; trace : list Event }.

Definition is_Finalize (ev : Event) : bool :=
  match ev with EvFinalize => true | _ => false end.

Definition is_Stdout (ev : Event) : bool :=
  match ev with EvStdout _ => true | _ => false end.

Definition is_WriteToFile (ev : Event) : bool :=
  match ev with EvWriteToFile _ _ => true | _ => false end.

(** A call of the file system. *)
Definition is_file (ev : Event) : bool :=
  match ev with EvReadFromFile _ | EvWriteToFile _ _ => true | _ => false end.

(** A call of the signer. *)
Definition is_signer (ev : Event) : bool :=
  match ev with
  | EvInitialize _ | EvSignPKCS1v15 _ | EvFinalize => true
  | _ => false
  end.

Definition M (A : Type) : Type := World -> A * World.

Definition ret {A : Type} (a : A) : M A := fun w => (a, w).

Definition bind {A B : Type} (c : M A) (k : A -> M B) : M B :=
  fun w => let '(a, w') := c w in k a w'.

Local Notation "x <- c ;; k" := (bind c (fun x => k))
  (at level 61, c at next level, right associativity).
Local Notation "' pat <- c ;; k" := (bind c (fun x => match x with pat => k end))
  (at level 61, pat pattern, c at next level, right associativity).

Definition log (e : Event) (w : World) : World :=
  mkWorld (device w) (disk w) (trace w ++ [e])%list.

Definition signer_Initialize (cfg : Config) : M (option error) :=
  fun w =>
    let '(d, err) := safenet.Initialize cfg (device w) in
    (err, log (EvInitialize cfg) (mkWorld d (disk w) (trace w))).

Definition signer_SignPKCS1v15 (digest : bytes) : M (bytes * option error) :=
  fun w =>
    let '(d, r) := safenet.SignPKCS1v15 digest (device w) in
    (r, log (EvSignPKCS1v15 digest) (mkWorld d (disk w) (trace w))).

Definition signer_Finalize : M unit :=
  fun w =>
    (tt, log EvFinalize (mkWorld (safenet.Finalize (device w)) (disk w) (trace w))).

(** [fmt.Printf]; its results are dropped by the caller. *)
Definition Printf (format : string) (a : list fmt.operand) : M unit :=
  fun w => (tt, log (EvStdout (fmt.Sprintf format a)) w).

Definition doc_ReadFromFile (path : string) : M (etree.Document * option error) :=
  fun w => (docio.ReadFromFile path (disk w), log (EvReadFromFile path) w).

Definition doc_WriteToFile (doc : etree.Document) (path : string) : M (option error) :=
  fun w =>
    let '(fs, err) := docio.WriteToFile path doc (disk w) in
    (err, log (EvWriteToFile path doc) (mkWorld (device w) fs (trace w))).

(** The statements of [GenerateIIC] after the [defer]. *)
Definition GenerateIIC_body (params : array7) : M (string * string * option error) :=
  let plainIIC := plainIIC params in
  _ <- Printf "Plain IIC: %s" [fmt.Str plainIIC] ;;
  let hasher := crypto.New crypto.SHA256 in
  let '(hasher, (_, err)) := crypto.Write hasher (bytes_of_string plainIIC) in
  match err with Some e => ret ("", "", Some e) | None =>
  let sha256IIC := crypto.Sum hasher [] in
  '(IICSignature, err) <- signer_SignPKCS1v15 sha256IIC ;;
  match err with Some e => ret ("", "", Some e) | None =>
  let hasher := crypto.New crypto.MD5 in
  let '(hasher, (_, err)) := crypto.Write hasher IICSignature in
  match err with Some e => ret ("", "", Some e) | None =>
  let IIC := crypto.Sum hasher [] in
  ret (fmt.Sprintf "%x" [fmt.Bytes IIC],
       fmt.Sprintf "%x" [fmt.Bytes IICSignature], err)
  end end end.

(** [GenerateIIC]: the deferred [signer.Finalize()] runs when the body
    returns, whatever it returns. *)
Definition GenerateIIC (SafenetConfig : Config) (params : array7)
    : M (string * string * option error) :=
  err <- signer_Initialize SafenetConfig ;;
  match err with Some e => ret ("", "", Some e) | None =>
  r <- GenerateIIC_body params ;;
  _ <- signer_Finalize ;;
  ret r
  end.

Record Params := mkParams
  { SafenetConfig : Config; InFile : string; OutFile : string }.

(** How a call of [WriteIIC] ends. *)
Inductive outcome :=
| Returns (err : option error)
| Panics.

Definition WriteIIC (params : Params) : M outcome :=
  (* Load file *)
  '(doc, err) <- doc_ReadFromFile (InFile params) ;;
  match err with Some e => ret (Returns (Some e)) | None =>
  (* Parse parameters *)
  let '(parsed, err) := parse doc in
  match err with Some e => ret (Returns (Some e)) | None =>
  (* Generate *)
  '(IIC, IICSignature, err) <- GenerateIIC (SafenetConfig params) parsed ;;
  match err with Some e => ret (Returns (Some e)) | None =>
  (* Save *)
  match embed IIC IICSignature doc with None => ret Panics | Some doc =>
  (* IndentTabs and SetTail change white space only *)
  match etree.Root doc with None => ret Panics | Some _ =>
  err <- doc_WriteToFile doc (OutFile params) ;;
  match err with Some e => ret (Returns (Some e)) | None =>
  ret (Returns None)
  end end end end end end.
End Generator.

(** ** Test doubles

    A deterministic signing device and an in-memory file system, to run the
    functions on. *)

Module stub.
Local Open Scope string_scope.

(** The device: whether it can be reached, whether its key is locked,
    and how many sessions are open. *)
Record Device := mkDevice { reachable : bool; locked : bool; sessions : nat }.

#[global] Instance signer : safenet.SafeNet unit Device := {
  Initialize _ d :=
    if reachable d
    then (mkDevice true (locked d) (S (sessions d)), None)
    else (d, Some "device unreachable");
  SignPKCS1v15 digest d :=
    if locked d
    then (d, ([], Some "device locked"))
    else (d, (rev digest, None));
  Finalize d := mkDevice (reachable d) (locked d) (pred (sessions d))
}.

Definition Files := list (string * etree.Document).

Fixpoint lookup (path : string) (fs : Files) : option etree.Document :=
  match fs with
  | [] => None
  | (p, d) :: rest => if p =? path then Some d else lookup path rest
  end.

#[global] Instance io : docio.DocumentIO Files := {
  ReadFromFile path fs :=
    match lookup path fs with
    | Some d => (d, None)
    | None => ([], Some ("open " ++ path ++ ": no such file or directory"))
    end;
  WriteToFile path doc fs := ((path, doc) :: fs, None)
}.

Definition attr (k v : string) : etree.Attr := etree.mkAttr "" k v.

Definition seller : etree.Element :=
  etree.mkElement "" "Seller" [attr "IDNum" "123456789"; attr "Name" "ACME"].

Definition invoice : etree.Element :=
  etree.mkElement "" "Invoice"
    [attr "IssueDateTime" "2023-01-01T10:00:00"; attr "InvOrdNum" "1";
     attr "BusinUnitCode" "BU1"; attr "TCRCode" "TCR1"; attr "SoftCode" "SC1";
     attr "TotPrice" "100.00"; attr "IIC" "stale"].

(** A complete invoice, one without its [Seller] element, and one whose
    [Seller] has no [IDNum]. *)
Definition request : etree.Document :=
  [etree.mkElement "" "RegisterInvoiceRequest" []; invoice; seller].

Definition no_seller : etree.Document :=
  [etree.mkElement "" "RegisterInvoiceRequest" []; invoice].

Definition no_IDNum : etree.Document :=
  [etree.mkElement "" "RegisterInvoiceRequest" []; invoice;
   etree.mkElement "" "Seller" [attr "Name" "ACME"]].

Definition fields : array7 :=
  mkArray7 "123456789" "2023-01-01T10:00:00" "1" "BU1" "TCR1" "SC1" "100.00".

Definition ready : Device := mkDevice true false 0.
Definition key_locked : Device := mkDevice true true 0.

Definition world (d : Device) (fs : Files) : World (Config := unit) :=
  mkWorld d fs [].

Definition params : Params (Config := unit) := mkParams tt "in.xml" "out.xml".

(** A file system holding one input file. *)
Definition holding (doc : etree.Document) : Files := [("in.xml", doc)].

(** Seven equal fields, and two distinct fields of which one contains
    the delimiter. *)
Definition all_A : array7 := mkArray7 "A" "A" "A" "A" "A" "A" "A".
Definition piped : array7 := mkArray7 "a|a" "a" "C" "D" "E" "F" "G".
End stub.


(* ================================================================== *)
(** * Part II: theory *)
(* ================================================================== *)

(** ** Strings *)

Section Strings.
Local Open Scope string_scope.

Lemma append_empty_r (s : string) : s ++ "" = s.
Proof. induction s as [|c s IH]; simpl; [reflexivity | now rewrite IH]. Qed.

Lemma append_inv_head (s x y : string) : s ++ x = s ++ y -> x = y.
Proof.
  induction s as [|c s IH]; simpl; intros H; [exact H |].
  injection H as H. now apply IH.
Qed.

Lemma length_append (s t : string) :
  String.length (s ++ t) = String.length s + String.length t.
Proof. induction s as [|c s IH]; simpl; [reflexivity | now rewrite IH]. Qed.
End Strings.

(** ** Digests and hex *)

Lemma md5_Sum_length (msg : bytes) : List.length (md5.Sum msg) = md5.Size.
Proof.
  unfold md5.Sum, md5.output.
  rewrite !length_app. reflexivity.
Qed.

Lemma sha256_Sum_length (msg : bytes) : List.length (sha256.Sum msg) = sha256.Size.
Proof.
  unfold sha256.Sum, sha256.output.
  rewrite !length_app. unfold u32.to_be. rewrite !length_rev. reflexivity.
Qed.

Lemma hex_length (b : bytes) :
  String.length (hex.EncodeToString b) = 2 * List.length b.
Proof.
  induction b as [|c b IH]; simpl; [reflexivity |].
  rewrite IH. lia.
Qed.

Lemma hex_digits_lower (c : byte) :
  hex.is_lower_hex (hex.digit (N.shiftr (Byte.to_N c) 4)) = true
  /\ hex.is_lower_hex (hex.digit (N.land (Byte.to_N c) 15)) = true.
Proof. destruct c; split; reflexivity. Qed.

Lemma hex_lower (b : bytes) :
  Forall (fun c => hex.is_lower_hex c = true)
         (list_ascii_of_string (hex.EncodeToString b)).
Proof.
  induction b as [|c b IH]; simpl; [constructor |].
  destruct (hex_digits_lower c) as [Hhi Hlo].
  constructor; [exact Hhi |]. constructor; [exact Hlo | exact IH].
Qed.

(** Known answers: RFC 1321 and FIPS 180-4 test vectors, and a message
    whose padding spills into a second block. *)
Example md5_abc :
  hex.EncodeToString (md5.Sum (bytes_of_string "abc"))
  = "900150983cd24fb0d6963f7d28e17f72"%string.
Proof. vm_compute. reflexivity. Qed.

Example md5_empty :
  hex.EncodeToString (md5.Sum []) = "d41d8cd98f00b204e9800998ecf8427e"%string.
Proof. vm_compute. reflexivity. Qed.

Example md5_two_blocks :
  hex.EncodeToString (md5.Sum (repeat "a"%byte 56))
  = "3b0c8ac703f828b04c6c197006d17218"%string.
Proof. vm_compute. reflexivity. Qed.

Example sha256_abc :
  hex.EncodeToString (sha256.Sum (bytes_of_string "abc"))
  = "ba7816bf8f01cfea414140de5dae2223b00361a396177a9cb410ff61f20015ad"%string.
Proof. vm_compute. reflexivity. Qed.

Example sha256_empty :
  hex.EncodeToString (sha256.Sum [])
  = "e3b0c44298fc1c149afbf4c8996fb92427ae41e4649b934ca495991b7852b855"%string.
Proof. vm_compute. reflexivity. Qed.

Example sha256_two_blocks :
  hex.EncodeToString (sha256.Sum (repeat "a"%byte 56))
  = "b35439a4ac6f0948b6d6f9e3c6af0f5f590ce20f1bde7090ef7970686ec6738a"%string.
Proof. vm_compute. reflexivity. Qed.

(** ** [fmt] on the formats of [iic.go] *)

Lemma Sprintf_x (b : bytes) :
  fmt.Sprintf "%x" [fmt.Bytes b] = hex.EncodeToString b.
Proof. unfold fmt.Sprintf. simpl. apply append_empty_r. Qed.

Lemma Sprintf_prefix_s (s : string) :
  fmt.Sprintf "Plain IIC: %s" [fmt.Str s] = ("Plain IIC: " ++ s)%string.
Proof. unfold fmt.Sprintf. simpl. now rewrite append_empty_r. Qed.

Lemma Errorf_element (elemName : string) :
  fmt.Errorf "can't find element %s" [fmt.Str elemName]
  = ("can't find element " ++ elemName)%string.
Proof. unfold fmt.Errorf, fmt.Sprintf. simpl. now rewrite append_empty_r. Qed.

Lemma Errorf_attribute (attrName : string) :
  fmt.Errorf "can't find attribute %s" [fmt.Str attrName]
  = ("can't find attribute " ++ attrName)%string.
Proof. unfold fmt.Errorf, fmt.Sprintf. simpl. now rewrite append_empty_r. Qed.

Lemma plainIIC_eq (a0 a1 a2 a3 a4 a5 a6 : string) :
  plainIIC (mkArray7 a0 a1 a2 a3 a4 a5 a6)
  = (a0 ++ "|" ++ a1 ++ "|" ++ a2 ++ "|" ++ a3 ++ "|" ++ a4 ++ "|" ++ a5
        ++ "|" ++ a6)%string.
Proof. unfold plainIIC, fmt.Sprintf. simpl. now rewrite append_empty_r. Qed.

(** C2: the plaintext that [GenerateIIC] builds is the seven fields, as they
    are, in declared order, joined by single [|] characters with nothing
    before the first and nothing after the last; for the fields A to G it is
    [A|B|C|D|E|F|G]. *)
Theorem plainIIC_is_join :
  (forall params : array7,
      plainIIC params = String.concat "|" (to_list params))
  /\ (forall params : array7,
         String.length (plainIIC params)
         = list_sum (map String.length (to_list params)) + 6)
  /\ plainIIC (mkArray7 "A" "B" "C" "D" "E" "F" "G") = "A|B|C|D|E|F|G"%string.
Proof.
  split; [| split].
  - intros [a0 a1 a2 a3 a4 a5 a6]. rewrite plainIIC_eq. reflexivity.
  - intros [a0 a1 a2 a3 a4 a5 a6]. rewrite plainIIC_eq.
    repeat (rewrite length_append; simpl). lia.
  - reflexivity.
Qed.

(** ** [GenerateIIC]: the three ways a call ends *)

Opaque md5.Sum sha256.Sum.
Arguments plainIIC : simpl never.
Arguments fmt.Sprintf : simpl never.

Lemma sha256IIC_eq (params : array7) :
  sha256IIC params = sha256.Sum (bytes_of_string (plainIIC params)).
Proof. reflexivity. Qed.

Section GeneratorTheory.
Context {Config Dev FS : Type}.
Context {signer : safenet.SafeNet Config Dev} {io : docio.DocumentIO FS}.
Local Open Scope string_scope.

Implicit Types (w : World (Config := Config) (Dev := Dev) (FS := FS)).
Implicit Types (cfg : Config) (params : array7) (e : error).

(** The session cannot be opened: nothing else happens. *)
Lemma GenerateIIC_init_fails cfg params w d e :
  safenet.Initialize cfg (device w) = (d, Some e) ->
  GenerateIIC cfg params w
  = (("", "", Some e),
     mkWorld d (disk w) (trace w ++ [EvInitialize cfg])).
Proof.
  intros Hi. unfold GenerateIIC, bind, signer_Initialize, ret, log.
  rewrite Hi. reflexivity.
Qed.

(** The device refuses to sign. *)
Lemma GenerateIIC_sign_fails cfg params w d1 d2 sig e :
  safenet.Initialize cfg (device w) = (d1, None) ->
  safenet.SignPKCS1v15 (sha256IIC params) d1 = (d2, (sig, Some e)) ->
  GenerateIIC cfg params w
  = (("", "", Some e),
     mkWorld (safenet.Finalize d2) (disk w)
       (trace w ++ [EvInitialize cfg;
                    EvStdout ("Plain IIC: " ++ plainIIC params);
                    EvSignPKCS1v15 (sha256IIC params);
                    EvFinalize])).
Proof.
  intros Hi Hs. rewrite sha256IIC_eq in *.
  unfold GenerateIIC, GenerateIIC_body, bind, signer_Initialize,
    signer_SignPKCS1v15, signer_Finalize, Printf, ret, log.
  rewrite Hi. cbn. rewrite Hs. cbn.
  rewrite Sprintf_prefix_s, <- !app_assoc. reflexivity.
Qed.

(** The device signs. *)
Lemma GenerateIIC_succeeds cfg params w d1 d2 sig :
  safenet.Initialize cfg (device w) = (d1, None) ->
  safenet.SignPKCS1v15 (sha256IIC params) d1 = (d2, (sig, None)) ->
  GenerateIIC cfg params w
  = ((hex.EncodeToString (md5.Sum sig), hex.EncodeToString sig, None),
     mkWorld (safenet.Finalize d2) (disk w)
       (trace w ++ [EvInitialize cfg;
                    EvStdout ("Plain IIC: " ++ plainIIC params);
                    EvSignPKCS1v15 (sha256IIC params);
                    EvFinalize])).
Proof.
  intros Hi Hs. rewrite sha256IIC_eq in *.
  unfold GenerateIIC, GenerateIIC_body, bind, signer_Initialize,
    signer_SignPKCS1v15, signer_Finalize, Printf, ret, log.
  rewrite Hi. cbn. rewrite Hs. cbn.
  rewrite Sprintf_prefix_s, !Sprintf_x, <- !app_assoc. reflexivity.
Qed.
(** Whenever the session opens, the call leaves the same four events. *)
Lemma GenerateIIC_trace cfg params w d1 :
  safenet.Initialize cfg (device w) = (d1, None) ->
  let w' := snd (GenerateIIC cfg params w) in
  trace w'
  = (trace w ++ [EvInitialize cfg;
                 EvStdout ("Plain IIC: " ++ plainIIC params);
                 EvSignPKCS1v15 (sha256IIC params);
                 EvFinalize])%list
  /\ disk w' = disk w
  /\ device w'
     = safenet.Finalize (fst (safenet.SignPKCS1v15 (sha256IIC params) d1)).
Proof.
  intros Hi.
  destruct (safenet.SignPKCS1v15 (sha256IIC params) d1) as [d2 [sig [e|]]] eqn:Hs.
  - rewrite (GenerateIIC_sign_fails _ _ _ Hi Hs). cbn. auto.
  - rewrite (GenerateIIC_succeeds _ _ _ Hi Hs). cbn. auto.
Qed.

(** X16: a call of [GenerateIIC] that returns an error, from whichever
    step, returns two empty strings with it: there is no partial output. *)
Lemma GenerateIIC_error_no_values cfg params w IIC IICSignature e :
  fst (GenerateIIC cfg params w) = (IIC, IICSignature, Some e) ->
  IIC = "" /\ IICSignature = "".
Proof.
  destruct (safenet.Initialize cfg (device w)) as [d1 [e1|]] eqn:Hi.
  - rewrite (GenerateIIC_init_fails _ params _ Hi). cbn. intros [= <- <- _]. auto.
  - destruct (safenet.SignPKCS1v15 (sha256IIC params) d1) as [d2 [sig [e2|]]] eqn:Hs.
    + rewrite (GenerateIIC_sign_fails _ _ _ Hi Hs). cbn. intros [= <- <- _]. auto.
    + rewrite (GenerateIIC_succeeds _ _ _ Hi Hs). cbn. discriminate.
Qed.

(** C1: in a run of [GenerateIIC] that returns no error, the signer has
    returned signature bytes for the SHA-256 digest of the plaintext; the
    first result is the lowercase hex of the 16-byte MD5 hash of those
    bytes, so 32 lowercase hex characters, and the second is the lowercase
    hex of the signature bytes, twice as long as the signature. *)
Theorem GenerateIIC_codes cfg params w w' (IIC IICSignature : string) :
  GenerateIIC cfg params w = ((IIC, IICSignature, None), w') ->
  exists SignatureBytes : bytes,
    snd (safenet.SignPKCS1v15
           (sha256.Sum (bytes_of_string (plainIIC params)))
           (fst (safenet.Initialize cfg (device w))))
    = (SignatureBytes, None)
    /\ IIC = hex.EncodeToString (md5.Sum SignatureBytes)
    /\ List.length (md5.Sum SignatureBytes) = 16
    /\ String.length IIC = 32
    /\ Forall (fun c => hex.is_lower_hex c = true) (list_ascii_of_string IIC)
    /\ IICSignature = hex.EncodeToString SignatureBytes
    /\ String.length IICSignature = 2 * List.length SignatureBytes
    /\ Forall (fun c => hex.is_lower_hex c = true)
              (list_ascii_of_string IICSignature).
Proof.
  change (sha256.Sum (bytes_of_string (plainIIC params))) with (sha256IIC params).
  destruct (safenet.Initialize cfg (device w)) as [d1 [e1|]] eqn:Hi.
  - rewrite (GenerateIIC_init_fails _ params _ Hi). discriminate.
  - destruct (safenet.SignPKCS1v15 (sha256IIC params) d1) as [d2 [sig [e2|]]] eqn:Hs.
    + rewrite (GenerateIIC_sign_fails _ _ _ Hi Hs). discriminate.
    + rewrite (GenerateIIC_succeeds _ _ _ Hi Hs). intros [= <- <- _].
      exists sig. cbn [fst snd]. rewrite Hs. cbn [snd].
      rewrite !hex_length, md5_Sum_length.
      repeat split; auto using hex_lower.
Qed.

(** C8: when the session has been opened, [GenerateIIC] calls
    [signer.Finalize] exactly once, as the last thing it does, whether it
    returns the codes or an error. *)
Theorem GenerateIIC_finalizes_once cfg params w d1 :
  safenet.Initialize cfg (device w) = (d1, None) ->
  exists (calls : list Event) (d2 : Dev),
    trace (snd (GenerateIIC cfg params w))
    = (trace w ++ calls ++ [EvFinalize])%list
    /\ existsb is_Finalize calls = false
    /\ List.length (filter is_Finalize (calls ++ [EvFinalize])) = 1
    /\ device (snd (GenerateIIC cfg params w)) = safenet.Finalize d2.
Proof.
  intros Hi. destruct (GenerateIIC_trace cfg params w Hi) as (Ht & _ & Hd).
  exists [EvInitialize cfg; EvStdout ("Plain IIC: " ++ plainIIC params);
          EvSignPKCS1v15 (sha256IIC params)].
  eexists. rewrite Ht, Hd. cbn. repeat split.
Qed.

(** Without a session there is nothing to release. *)
Lemma GenerateIIC_no_session_no_Finalize cfg params w d e :
  safenet.Initialize cfg (device w) = (d, Some e) ->
  trace (snd (GenerateIIC cfg params w)) = (trace w ++ [EvInitialize cfg])%list.
Proof. intros Hi. now rewrite (GenerateIIC_init_fails _ params _ Hi). Qed.

(** C9: two runs of [GenerateIIC] on the same fields, in each of which the
    session opens and the signer returns the same signature bytes for the
    digest, return the same pair of codes. *)
Theorem GenerateIIC_deterministic cfg params w1 w2 (SignatureBytes : bytes) :
  snd (safenet.Initialize cfg (device w1)) = None ->
  snd (safenet.Initialize cfg (device w2)) = None ->
  snd (safenet.SignPKCS1v15 (sha256IIC params)
         (fst (safenet.Initialize cfg (device w1)))) = (SignatureBytes, None) ->
  snd (safenet.SignPKCS1v15 (sha256IIC params)
         (fst (safenet.Initialize cfg (device w2)))) = (SignatureBytes, None) ->
  fst (GenerateIIC cfg params w1) = fst (GenerateIIC cfg params w2)
  /\ fst (GenerateIIC cfg params w1)
     = (hex.EncodeToString (md5.Sum SignatureBytes),
        hex.EncodeToString SignatureBytes, None).
Proof.
  destruct (safenet.Initialize cfg (device w1)) as [d1 i1] eqn:Hi1.
  destruct (safenet.Initialize cfg (device w2)) as [d2 i2] eqn:Hi2.
  cbn [fst snd]. intros -> ->.
  destruct (safenet.SignPKCS1v15 (sha256IIC params) d1) as [d1' r1] eqn:Hs1.
  destruct (safenet.SignPKCS1v15 (sha256IIC params) d2) as [d2' r2] eqn:Hs2.
  cbn [snd]. intros -> ->.
  rewrite (GenerateIIC_succeeds _ _ _ Hi1 Hs1), (GenerateIIC_succeeds _ _ _ Hi2 Hs2).
  split; reflexivity.
Qed.

(** C10: whenever the session opens, [GenerateIIC] prints the plaintext
    to standard output, whatever the configuration and whether or not the
    call then fails; it prints once, before it asks for the signature, and
    the text is made of the fields alone. *)
Theorem GenerateIIC_prints_plaintext cfg params w d1 :
  safenet.Initialize cfg (device w) = (d1, None) ->
  exists rest : list Event,
    trace (snd (GenerateIIC cfg params w))
    = (trace w ++ [EvInitialize cfg;
                   EvStdout ("Plain IIC: " ++ plainIIC params)] ++ rest)%list
    /\ existsb is_Stdout rest = false
    /\ In (EvSignPKCS1v15 (sha256IIC params)) rest.
Proof.
  intros Hi. destruct (GenerateIIC_trace cfg params w Hi) as (Ht & _ & _).
  exists [EvSignPKCS1v15 (sha256IIC params); EvFinalize].
  rewrite Ht. cbn. repeat split. auto.
Qed.
End GeneratorTheory.

(** ** Attribute lists *)

Section Attributes.
Import etree.
Local Open Scope string_scope.

Implicit Types (l : list Attr) (a : Attr) (space key value : string).

Lemma same_name_iff space key a :
  same_name space key a = true <-> name a = (space, key).
Proof.
  unfold same_name, name. rewrite andb_true_iff, !String.eqb_eq.
  split; [intros [-> ->]; reflexivity | intros [= -> ->]; auto].
Qed.

Lemma same_name_mkAttr space key value :
  same_name space key (mkAttr space key value) = true.
Proof. apply same_name_iff. reflexivity. Qed.

Lemma named_nil_iff space key l :
  named space key l = [] <-> ~ In (space, key) (map name l).
Proof.
  unfold named. induction l as [|a l IH]; simpl; [tauto |].
  destruct (same_name space key a) eqn:E.
  - apply same_name_iff in E. split; [discriminate | intros H; exfalso; auto].
  - rewrite IH. split; [intros H [Ha | Hl] | tauto]; [| tauto].
    apply same_name_iff in Ha. congruence.
Qed.

Lemma without_id space key l :
  named space key l = [] -> without space key l = l.
Proof.
  unfold named, without. induction l as [|a l IH]; simpl; [reflexivity |].
  destruct (same_name space key a); simpl; [discriminate |].
  intros H. now rewrite IH.
Qed.

Lemma named_without space key l : named space key (without space key l) = [].
Proof.
  unfold named, without. induction l as [|a l IH]; simpl; [reflexivity |].
  destruct (same_name space key a) eqn:E; simpl; [exact IH |].
  now rewrite E.
Qed.

Lemma named_without_comm space key space' key' l :
  named space key (without space' key' l)
  = without space' key' (named space key l).
Proof.
  unfold named, without. induction l as [|a l IH]; simpl; [reflexivity |].
  destruct (same_name space' key' a) eqn:E', (same_name space key a) eqn:E;
    simpl; rewrite ?E, ?E'; simpl; now rewrite IH.
Qed.

Lemma named_without_nil space key space' key' l :
  named space key l = [] -> named space key (without space' key' l) = [].
Proof. intros H. now rewrite named_without_comm, H. Qed.

Lemma named_app space key l l' :
  named space key (l ++ l') = (named space key l ++ named space key l')%list.
Proof. apply filter_app. Qed.

Lemma without_app space key l l' :
  without space key (l ++ l')
  = (without space key l ++ without space key l')%list.
Proof. apply filter_app. Qed.

Lemma NoDup_names_filter (f : Attr -> bool) l :
  NoDup (map name l) -> NoDup (map name (filter f l)).
Proof.
  induction l as [|a l IH]; simpl; [auto |].
  intros H. inversion H as [|? ? Hnotin Hl]; subst.
  destruct (f a); simpl; [constructor |]; auto.
  intros Hin. apply Hnotin. apply in_map_iff in Hin as (b & Hb & Hin).
  apply in_map_iff. exists b. split; [exact Hb |].
  now apply filter_In in Hin.
Qed.

Lemma NoDup_names_snoc space key value l :
  NoDup (map name l) -> named space key l = [] ->
  NoDup (map name (l ++ [mkAttr space key value])).
Proof.
  intros Hl Hfresh. rewrite map_app. simpl.
  apply NoDup_app; [exact Hl | repeat constructor; simpl; tauto |].
  intros n Hn [<- | []]. revert Hn. now apply named_nil_iff.
Qed.

Lemma distinct_NoDup l : distinct l = true <-> NoDup (map name l).
Proof.
  induction l as [|a l IH]; simpl.
  - split; [constructor | reflexivity].
  - rewrite andb_true_iff, negb_true_iff, IH. split.
    + intros [Hex Hl]. constructor; [| exact Hl].
      intros Hin. apply in_map_iff in Hin as (b & Hb & Hin).
      assert (existsb (same_name (Space a) (Key a)) l = true); [| congruence].
      apply existsb_exists. exists b. split; [exact Hin |].
      now apply same_name_iff.
    + intros H. inversion H as [|? ? Hnotin Hl]; subst. split; [| exact Hl].
      destruct (existsb (same_name (Space a) (Key a)) l) eqn:E; [| reflexivity].
      apply existsb_exists in E as (b & Hin & Hb).
      apply same_name_iff in Hb. exfalso. apply Hnotin.
      apply in_map_iff. eauto.
Qed.

(** With distinct names, removing the first attribute of a name removes
    them all. *)
Lemma remove_first_without space key l :
  NoDup (map name l) ->
  remove_first (same_name space key) l = without space key l.
Proof.
  unfold without. induction l as [|a l IH]; simpl; [reflexivity |].
  intros H. inversion H as [|? ? Hnotin Hl]; subst.
  destruct (same_name space key a) eqn:E; simpl.
  - apply same_name_iff in E. rewrite E in Hnotin.
    symmetry. apply without_id. now apply named_nil_iff.
  - now rewrite IH.
Qed.

(** Setting an attribute that the element does not have appends it. *)
Lemma createAttr_fresh space key value l :
  named space key l = [] ->
  createAttr space key value l = (l ++ [mkAttr space key value])%list.
Proof.
  unfold named. induction l as [|a l IH]; simpl; [reflexivity |].
  destruct (same_name space key a); [discriminate |].
  intros H. now rewrite IH.
Qed.

(** One "remove, then set" of the "Save" step, on distinct names. *)
Lemma remove_create space key value l :
  NoDup (map name l) ->
  createAttr space key value (remove_first (same_name space key) l)
  = (without space key l ++ [mkAttr space key value])%list
  /\ NoDup (map name (without space key l ++ [mkAttr space key value])).
Proof.
  intros H. rewrite remove_first_without by exact H.
  rewrite createAttr_fresh by apply named_without. split; [reflexivity |].
  apply NoDup_names_snoc; [now apply NoDup_names_filter | apply named_without].
Qed.
End Attributes.

(** ** Documents *)

Arguments etree.FindElement : simpl never.

Section Documents.
Import etree.
Local Open Scope string_scope.

Implicit Types (doc : Document) (p : ptr) (e : Element).

Lemma find_index_lt (A : Type) (f : A -> bool) (l : list A) (n : nat) :
  find_index f l = Some n -> n < List.length l.
Proof.
  revert n. induction l as [|x l IH]; simpl; [discriminate |].
  intros n. destruct (f x); [intros [= <-]; lia |].
  destruct (find_index f l) as [m|]; simpl; [| discriminate].
  intros [= <-]. specialize (IH m eq_refl). lia.
Qed.

Lemma FindElement_lt path doc p :
  FindElement path doc = Some p -> p < List.length doc.
Proof.
  unfold FindElement. destruct path as [|c1 [|c2 name]]; try discriminate.
  destruct ((c1 =? "/") && (c2 =? "/"))%char; [| discriminate].
  destruct (spaceDecompose name). apply find_index_lt.
Qed.

Lemma find_index_update (f : Element -> bool) (g : Element -> Element) doc p :
  (forall e, f (g e) = f e) ->
  find_index f (update p g doc) = find_index f doc.
Proof.
  intros Hg. revert p. induction doc as [|x doc IH]; intros [|q]; simpl; auto.
  - now rewrite Hg.
  - now rewrite IH.
Qed.

(** A change of attributes does not change what a path finds. *)
Lemma FindElement_update path (g : Element -> Element) doc p :
  (forall e, ESpace (g e) = ESpace e /\ Tag (g e) = Tag e) ->
  FindElement path (update p g doc) = FindElement path doc.
Proof.
  intros Hg. unfold FindElement.
  destruct path as [|c1 [|c2 name]]; try reflexivity.
  destruct ((c1 =? "/") && (c2 =? "/"))%char; [| reflexivity].
  destruct (spaceDecompose name).
  apply find_index_update. intros e. destruct (Hg e) as [-> ->]. reflexivity.
Qed.

Lemma update_update (f g : Element -> Element) doc p :
  update p f (update p g doc) = update p (fun e => f (g e)) doc.
Proof.
  revert p. induction doc as [|x doc IH]; intros [|q]; simpl; auto.
  now rewrite IH.
Qed.

Lemma update_ext_at (f g : Element -> Element) doc p :
  f (load doc p) = g (load doc p) -> update p f doc = update p g doc.
Proof.
  unfold load. revert p. induction doc as [|x doc IH]; intros [|q]; simpl; auto.
  - now intros ->.
  - intros H. now rewrite (IH q H).
Qed.

Lemma load_update (f : Element -> Element) doc p :
  p < List.length doc -> load (update p f doc) p = f (load doc p).
Proof.
  unfold load. revert p. induction doc as [|x doc IH]; intros [|q]; simpl;
    try lia; auto.
  intros H. apply IH. lia.
Qed.

Lemma load_update_other (f : Element -> Element) doc p q :
  q <> p -> load (update p f doc) q = load doc q.
Proof.
  unfold load. revert p q.
  induction doc as [|x doc IH]; intros [|p] [|q]; simpl; auto; try congruence.
Qed.

Lemma element_eq e e' :
  ESpace e = ESpace e' -> Tag e = Tag e' -> Attrs e = Attrs e' -> e = e'.
Proof. destruct e, e'; simpl; congruence. Qed.

Lemma saved_names IIC IICSignature e :
  ESpace (saved IIC IICSignature e) = ESpace e
  /\ Tag (saved IIC IICSignature e) = Tag e.
Proof. split; reflexivity. Qed.

(** The attributes after the "Save" step, for distinct names: the others
    in their order, then the two codes. *)
Lemma saved_attrs IIC IICSignature e :
  NoDup (map name (Attrs e)) ->
  Attrs (saved IIC IICSignature e)
  = (without "" "IICSignature" (without "" "IIC" (Attrs e))
       ++ [mkAttr "" "IIC" IIC; mkAttr "" "IICSignature" IICSignature])%list
  /\ NoDup (map name (Attrs (saved IIC IICSignature e))).
Proof.
  unfold saved, CreateAttr, RemoveAttr. cbn.
  intros H.
  destruct (@remove_create "" "IIC" IIC _ H) as [-> H1].
  destruct (@remove_create "" "IICSignature" IICSignature _ H1) as [-> H2].
  rewrite without_app in *. cbn in *. rewrite <- app_assoc in *. cbn in *.
  split; [reflexivity | exact H2].
Qed.

Lemma saved_named IIC IICSignature e :
  NoDup (map name (Attrs e)) ->
  named "" "IIC" (Attrs (saved IIC IICSignature e)) = [mkAttr "" "IIC" IIC]
  /\ named "" "IICSignature" (Attrs (saved IIC IICSignature e))
     = [mkAttr "" "IICSignature" IICSignature].
Proof.
  intros H. destruct (@saved_attrs IIC IICSignature _ H) as [-> _].
  rewrite !named_app, named_without.
  rewrite named_without_nil by apply named_without. split; reflexivity.
Qed.

Lemma saved_saved IIC IICSignature e :
  NoDup (map name (Attrs e)) ->
  saved IIC IICSignature (saved IIC IICSignature e) = saved IIC IICSignature e.
Proof.
  intros H. destruct (@saved_attrs IIC IICSignature _ H) as [Ha H1].
  destruct (@saved_attrs IIC IICSignature _ H1) as [Ha2 _].
  destruct (@saved_named IIC IICSignature _ H) as [Hi Hs].
  apply element_eq; try reflexivity.
  rewrite Ha2, Ha. rewrite !without_app. cbn. rewrite !app_nil_r.
  f_equal.
  rewrite (without_id "" "IIC")
    by (apply named_without_nil, named_without).
  apply without_id, named_without.
Qed.

Lemma embed_found IIC IICSignature doc p :
  FindElement "//Invoice" doc = Some p ->
  embed IIC IICSignature doc = Some (update p (saved IIC IICSignature) doc).
Proof.
  intros H. unfold embed, through.
  rewrite H.
  rewrite FindElement_update, H by (intros e; split; reflexivity).
  rewrite update_update.
  rewrite FindElement_update, H by (intros e; split; reflexivity).
  rewrite update_update.
  rewrite FindElement_update, H by (intros e; split; reflexivity).
  rewrite update_update. reflexivity.
Qed.

(** The "Save" step succeeds only on a document with an [Invoice]
    element, which then has a root. *)
Lemma embed_Root IIC IICSignature doc doc1 :
  embed IIC IICSignature doc = Some doc1 -> Root doc1 = Some 0.
Proof.
  destruct (FindElement "//Invoice" doc) as [p|] eqn:Hf.
  - rewrite (embed_found _ _ _ Hf). intros [= <-].
    apply FindElement_lt in Hf.
    destruct doc as [|x doc]; [simpl in Hf; lia |].
    destruct p; reflexivity.
  - unfold embed, through. now rewrite Hf.
Qed.

(** The "Save" step on a document with an [Invoice] element. *)
Lemma embed_spec IIC IICSignature doc p :
  FindElement "//Invoice" doc = Some p ->
  NoDup (map name (Attrs (load doc p))) ->
  exists doc1,
    embed IIC IICSignature doc = Some doc1
    /\ FindElement "//Invoice" doc1 = Some p
    /\ load doc1 p = saved IIC IICSignature (load doc p)
    /\ NoDup (map name (Attrs (load doc1 p)))
    /\ (forall q, q <> p -> load doc1 q = load doc q).
Proof.
  intros Hf Hwf. exists (update p (saved IIC IICSignature) doc).
  pose proof (FindElement_lt _ _ Hf) as Hlt.
  rewrite (embed_found _ _ _ Hf), load_update by exact Hlt.
  rewrite FindElement_update by (intros e; apply saved_names).
  repeat split; auto.
  - now apply saved_attrs.
  - intros q Hq. now apply load_update_other.
Qed.

(** C7: the "Save" step of [WriteIIC], applied to a document whose
    [Invoice] element has no two attributes of the same name, leaves that
    element with exactly one [IIC] and exactly one [IICSignature]
    attribute, holding the values just given; applied again with the same
    values it changes nothing, and applied again with other values it
    leaves exactly one attribute of each name, holding the new values. *)
Theorem embed_idempotent doc p (IIC IICSignature : string) :
  FindElement "//Invoice" doc = Some p ->
  wellformed (load doc p) = true ->
  exists doc1,
    embed IIC IICSignature doc = Some doc1
    /\ embed IIC IICSignature doc1 = Some doc1
    /\ FindElement "//Invoice" doc1 = Some p
    /\ named "" "IIC" (Attrs (load doc1 p)) = [mkAttr "" "IIC" IIC]
    /\ named "" "IICSignature" (Attrs (load doc1 p))
       = [mkAttr "" "IICSignature" IICSignature]
    /\ forall IIC' IICSignature' : string,
        exists doc2,
          embed IIC' IICSignature' doc1 = Some doc2
          /\ FindElement "//Invoice" doc2 = Some p
          /\ named "" "IIC" (Attrs (load doc2 p)) = [mkAttr "" "IIC" IIC']
          /\ named "" "IICSignature" (Attrs (load doc2 p))
             = [mkAttr "" "IICSignature" IICSignature'].
Proof.
  intros Hf Hwf. apply distinct_NoDup in Hwf.
  destruct (embed_spec IIC IICSignature _ Hf Hwf) as (doc1 & He & Hf1 & Hl1 & Hwf1 & _).
  exists doc1. split; [exact He |].
  destruct (@saved_named IIC IICSignature _ Hwf) as [Hi Hs].
  rewrite Hl1. repeat split; auto.
  - rewrite (embed_found _ _ _ Hf1). f_equal.
    rewrite (embed_found _ _ _ Hf) in He. injection He as <-.
    rewrite update_update. apply update_ext_at. now apply saved_saved.
  - intros IIC' IICSignature'.
    destruct (embed_spec IIC' IICSignature' _ Hf1 Hwf1) as (doc2 & He2 & Hf2 & Hl2 & _).
    exists doc2. rewrite Hl2.
    destruct (@saved_named IIC' IICSignature' _ Hwf1) as [Hi2 Hs2]. auto.
Qed.
End Documents.

(** ** Field extraction *)

Section ExtractionTheory.
Import etree.
Local Open Scope string_scope.

Implicit Types (doc : Document) (elemName attrName : string) (e : error).

Lemma attributeOfElement_spec elemName attrName doc :
  attributeOfElement elemName attrName doc
  = match FindElement elemName doc with
    | None => ("", Some ("can't find element " ++ elemName))
    | Some elem =>
        match SelectAttr attrName (load doc elem) with
        | None => ("", Some ("can't find attribute " ++ attrName))
        | Some attr => (Value attr, None)
        end
    end.
Proof.
  unfold attributeOfElement, mapElement, mapAttrib.
  rewrite Errorf_element, Errorf_attribute. reflexivity.
Qed.

Lemma attributeOfElement_absent elemName attrName doc :
  absent doc (elemName, attrName) = true ->
  exists e, attributeOfElement elemName attrName doc = ("", Some e).
Proof.
  rewrite attributeOfElement_spec. unfold absent. cbn [fst snd].
  destruct (FindElement elemName doc) as [elem|]; [| eauto].
  destruct (SelectAttr attrName (load doc elem)); [discriminate | eauto].
Qed.

Lemma attributeOfElement_present elemName attrName doc :
  absent doc (elemName, attrName) = false ->
  exists v, attributeOfElement elemName attrName doc = (v, None).
Proof.
  rewrite attributeOfElement_spec. unfold absent. cbn [fst snd].
  destruct (FindElement elemName doc) as [elem|]; [| discriminate].
  destruct (SelectAttr attrName (load doc elem)); [eauto | discriminate].
Qed.

(** [parse] fails with the error of the first locator, in the order of
    the fields, that finds nothing, and succeeds when there is none. *)
Lemma parse_spec doc :
  parse doc
  = match find (absent doc) locators with
    | Some (elemName, attrName) =>
        (zero7, snd (attributeOfElement elemName attrName doc))
    | None =>
        (mkArray7 (fst (attributeOfElement "//Seller" "IDNum" doc))
                  (fst (attributeOfElement "//Invoice" "IssueDateTime" doc))
                  (fst (attributeOfElement "//Invoice" "InvOrdNum" doc))
                  (fst (attributeOfElement "//Invoice" "BusinUnitCode" doc))
                  (fst (attributeOfElement "//Invoice" "TCRCode" doc))
                  (fst (attributeOfElement "//Invoice" "SoftCode" doc))
                  (fst (attributeOfElement "//Invoice" "TotPrice" doc)),
         None)
    end.
Proof.
  unfold parse, locators. cbn [find].
  repeat match goal with
         | |- context [absent doc (?s, ?a)] =>
             let E := fresh "E" in
             destruct (absent doc (s, a)) eqn:E;
             [ destruct (attributeOfElement_absent _ _ _ E) as [? ->];
               reflexivity
             | destruct (attributeOfElement_present _ _ _ E) as [? ->];
               cbn [fst snd] ]
         end.
  reflexivity.
Qed.

(** When every locator finds its attribute, [parse] returns the seven
    values and no error. *)
Lemma parse_complete doc :
  existsb (absent doc) locators = false ->
  exists fields, parse doc = (fields, None).
Proof.
  intros H. rewrite parse_spec.
  destruct (find (absent doc) locators) as [[s a]|] eqn:Hf; [| eauto].
  apply find_some in Hf as [Hin Habs].
  assert (existsb (absent doc) locators = true) by (apply existsb_exists; eauto).
  congruence.
Qed.

(** C3: an error of [parse] is the error of one of the seven locators, and
    it names the one thing that was not found: the element path when the
    document has no such element, or the attribute when the element is
    there without it. *)
Theorem extraction_error_names_what_is_missing doc e :
  snd (parse doc) = Some e ->
  exists elemName attrName,
    In (elemName, attrName) locators
    /\ snd (attributeOfElement elemName attrName doc) = Some e
    /\ match FindElement elemName doc with
       | None => e = "can't find element " ++ elemName
       | Some elem =>
           SelectAttr attrName (load doc elem) = None
           /\ e = "can't find attribute " ++ attrName
       end.
Proof.
  rewrite parse_spec.
  destruct (find (absent doc) locators) as [[s a]|] eqn:Hf; [| discriminate].
  apply find_some in Hf as [Hin _]. cbn [snd]. intros He.
  exists s, a. split; [exact Hin |]. split; [exact He |].
  rewrite attributeOfElement_spec in He.
  destruct (FindElement s doc) as [elem|]; [| now injection He].
  destruct (SelectAttr a (load doc elem)); [discriminate |].
  split; [reflexivity | now injection He].
Qed.
End ExtractionTheory.

(** ** [WriteIIC] *)

Section WriteTheory.
Context {Config Dev FS : Type}.
Context {signer : safenet.SafeNet Config Dev} {io : docio.DocumentIO FS}.
Local Open Scope string_scope.

Implicit Types (w : World (Config := Config) (Dev := Dev) (FS := FS)).
Implicit Types (p : Params (Config := Config)) (doc : etree.Document).

Lemma WriteIIC_read_fails p w doc e :
  docio.ReadFromFile (InFile p) (disk w) = (doc, Some e) ->
  WriteIIC p w = (Returns (Some e), log (EvReadFromFile (InFile p)) w).
Proof.
  intros Hr. unfold WriteIIC, bind, doc_ReadFromFile, ret.
  rewrite Hr. reflexivity.
Qed.

Lemma WriteIIC_parse_fails p w doc fields e :
  docio.ReadFromFile (InFile p) (disk w) = (doc, None) ->
  parse doc = (fields, Some e) ->
  WriteIIC p w = (Returns (Some e), log (EvReadFromFile (InFile p)) w).
Proof.
  intros Hr Hp. unfold WriteIIC, bind, doc_ReadFromFile, ret.
  rewrite Hr, Hp. reflexivity.
Qed.

Lemma WriteIIC_generate_fails p w doc parsed IIC IICSignature e w1 :
  docio.ReadFromFile (InFile p) (disk w) = (doc, None) ->
  parse doc = (parsed, None) ->
  GenerateIIC (SafenetConfig p) parsed (log (EvReadFromFile (InFile p)) w)
  = ((IIC, IICSignature, Some e), w1) ->
  WriteIIC p w = (Returns (Some e), w1).
Proof.
  intros Hr Hp Hg. unfold WriteIIC, bind, doc_ReadFromFile, ret.
  rewrite Hr, Hp, Hg. reflexivity.
Qed.

(** After a successful [GenerateIIC], the document with the two codes
    goes to the output file. *)
Lemma WriteIIC_saves p w doc parsed IIC IICSignature w1 doc1 :
  docio.ReadFromFile (InFile p) (disk w) = (doc, None) ->
  parse doc = (parsed, None) ->
  GenerateIIC (SafenetConfig p) parsed (log (EvReadFromFile (InFile p)) w)
  = ((IIC, IICSignature, None), w1) ->
  embed IIC IICSignature doc = Some doc1 ->
  WriteIIC p w
  = (Returns (snd (docio.WriteToFile (OutFile p) doc1 (disk w1))),
     mkWorld (device w1) (fst (docio.WriteToFile (OutFile p) doc1 (disk w1)))
             (trace w1 ++ [EvWriteToFile (OutFile p) doc1])).
Proof.
  intros Hr Hp Hg He. unfold WriteIIC, bind, doc_ReadFromFile, ret.
  rewrite Hr, Hp, Hg, He. unfold doc_WriteToFile, log.
  pose proof (embed_Root _ _ _ He) as Hroot.
  rewrite Hroot.
  destruct (docio.WriteToFile (OutFile p) doc1 (disk w1)) as [fs [e|]];
    reflexivity.
Qed.

(** C5: when the document lacks one of the seven attributes, or the
    element that carries it, [parse] returns the zero array and the error
    of the first locator that finds nothing, never some of the values;
    [WriteIIC] then returns that error with nothing done beyond reading
    the input file: no call of the signer, no write. *)
Theorem parse_short_circuits doc :
  existsb (absent doc) locators = true ->
  exists elemName attrName e,
    find (absent doc) locators = Some (elemName, attrName)
    /\ attributeOfElement elemName attrName doc = (EmptyString, Some e)
    /\ parse doc = (zero7, Some e)
    /\ forall p w,
        docio.ReadFromFile (InFile p) (disk w) = (doc, None) ->
        WriteIIC p w = (Returns (Some e), log (EvReadFromFile (InFile p)) w)
        /\ device (snd (WriteIIC p w)) = device w
        /\ disk (snd (WriteIIC p w)) = disk w
        /\ existsb is_signer (trace (snd (WriteIIC p w)))
           = existsb is_signer (trace w).
Proof.
  intros H. apply existsb_exists in H as (loc & Hin & Habs).
  destruct (find (absent doc) locators) as [[s a]|] eqn:Hf.
  - pose proof (find_some _ _ Hf) as [_ Hsa].
    destruct (attributeOfElement_absent _ _ _ Hsa) as [e He].
    assert (Hp : parse doc = (zero7, Some e)) by now rewrite parse_spec, Hf, He.
    exists s, a, e. repeat split; auto.
    all: rewrite (WriteIIC_parse_fails _ _ H Hp); cbn; auto.
    rewrite existsb_app. cbn. now rewrite !orb_false_r.
  - exfalso. pose proof (find_none _ _ Hf _ Hin). congruence.
Qed.

(** C6: when the device refuses to sign, [GenerateIIC] returns the
    device's error and two empty strings; [WriteIIC] returns that error
    as soon as [GenerateIIC] has, so it sets no attribute and writes no
    file: the file system is as it was. *)
Theorem sign_failure_leaves_document p w doc parsed d1 d2 sig e :
  docio.ReadFromFile (InFile p) (disk w) = (doc, None) ->
  parse doc = (parsed, None) ->
  safenet.Initialize (SafenetConfig p) (device w) = (d1, None) ->
  safenet.SignPKCS1v15 (sha256IIC parsed) d1 = (d2, (sig, Some e)) ->
  (forall w', device w' = device w ->
      fst (GenerateIIC (SafenetConfig p) parsed w') = ("", "", Some e))
  /\ WriteIIC p w
     = (Returns (Some e),
        snd (GenerateIIC (SafenetConfig p) parsed
               (log (EvReadFromFile (InFile p)) w)))
  /\ disk (snd (WriteIIC p w)) = disk w
  /\ existsb is_WriteToFile (trace (snd (WriteIIC p w)))
     = existsb is_WriteToFile (trace w).
Proof.
  intros Hr Hp Hi Hs.
  assert (Hg : forall w', device w' = device w ->
            GenerateIIC (SafenetConfig p) parsed w'
            = (("", "", Some e),
               mkWorld (safenet.Finalize d2) (disk w')
                 (trace w' ++ [EvInitialize (SafenetConfig p);
                               EvStdout ("Plain IIC: " ++ plainIIC parsed);
                               EvSignPKCS1v15 (sha256IIC parsed);
                               EvFinalize]))).
  { intros w' Hw. apply GenerateIIC_sign_fails with (d1 := d1) (sig := sig); auto.
    now rewrite Hw. }
  split; [intros w' Hw; now rewrite (Hg w' Hw) |].
  pose proof (Hg (log (EvReadFromFile (InFile p)) w) eq_refl) as Hg0.
  rewrite (WriteIIC_generate_fails _ _ Hr Hp Hg0), Hg0. cbn.
  repeat split.
  rewrite !existsb_app. cbn. now rewrite !orb_false_r.
Qed.
End WriteTheory.

(** ** The order of the fields *)

Section FieldOrder.
Local Open Scope string_scope.

Lemma contains_pipe_cons (c : ascii) (s : string) :
  contains (String c s) "|" = false ->
  c <> "|"%char /\ contains s "|" = false.
Proof.
  cbn [contains HasPrefix].
  destruct ("|" =? c)%char eqn:E; cbn [andb orb]; [discriminate |].
  intros H. split; [| exact H].
  intros ->. now rewrite Ascii.eqb_refl in E.
Qed.

(** Two fields without the delimiter that are followed by it in equal
    strings are equal. *)
Lemma delimited_inj (a b r r' : string) :
  contains a "|" = false -> contains b "|" = false ->
  a ++ String "|" r = b ++ String "|" r' -> a = b.
Proof.
  revert b. induction a as [|c a IH]; intros [|c' b] Ha Hb; simpl; intros H.
  - reflexivity.
  - injection H as Hc _. apply contains_pipe_cons in Hb as [Hb _]. congruence.
  - injection H as Hc _. apply contains_pipe_cons in Ha as [Ha _]. congruence.
  - injection H as -> H.
    apply contains_pipe_cons in Ha as [_ Ha].
    apply contains_pipe_cons in Hb as [_ Hb].
    f_equal. now apply IH.
Qed.

(** C4: exchanging the values at two positions changes the plaintext
    whenever the two values differ and neither contains the delimiter
    [|]. *)
Theorem swap_changes_plainIIC (params : array7) (i j : index7) :
  get params i <> get params j ->
  contains (get params i) "|" = false ->
  contains (get params j) "|" = false ->
  plainIIC (swap params i j) <> plainIIC params.
Proof.
  destruct params as [a0 a1 a2 a3 a4 a5 a6].
  destruct i, j; cbn [get set swap at0 at1 at2 at3 at4 at5 at6];
    intros Hne Hi Hj; try congruence;
    rewrite !plainIIC_eq; cbn [append]; intros Heq;
    repeat first [ apply append_inv_head in Heq | injection Heq as Heq ];
    apply delimited_inj in Heq; auto.
Qed.
End FieldOrder.

(** ** The functions at work

    Runs on the test doubles: the end-to-end scenario, and an instance of
    each conditional statement above, with its conditions checked. *)

Section Runs.
Local Open Scope string_scope.

(** The golden vector: plaintext, digest, and the codes that a signer
    returning the reversed digest leads to. *)
Example golden_vector :
  plainIIC stub.fields = "123456789|2023-01-01T10:00:00|1|BU1|TCR1|SC1|100.00"
  /\ hex.EncodeToString (sha256IIC stub.fields)
     = "9402ff2732afc293a31a0dddab76f1fde1786c86da52f19faaa3cb89a39f324f"
  /\ fst (GenerateIIC tt stub.fields (stub.world stub.ready []))
     = ("04223cb332787afd53283801319c7f74",
        "4f329fa389cba3aa9ff152da866c78e1fdf176abdd0d1aa393c2af3227ff0294",
        None).
Proof. repeat split; vm_compute; reflexivity. Qed.

Example parse_request : parse stub.request = (stub.fields, None).
Proof. vm_compute. reflexivity. Qed.

Lemma GenerateIIC_codes_witness :
  fst (GenerateIIC tt stub.fields (stub.world stub.ready []))
  = ("04223cb332787afd53283801319c7f74",
     "4f329fa389cba3aa9ff152da866c78e1fdf176abdd0d1aa393c2af3227ff0294",
     None)
  /\ String.length "04223cb332787afd53283801319c7f74" = 32
  /\ exists SignatureBytes : bytes,
      String.length
        "4f329fa389cba3aa9ff152da866c78e1fdf176abdd0d1aa393c2af3227ff0294"
      = 2 * List.length SignatureBytes.
Proof.
  assert (H : GenerateIIC tt stub.fields (stub.world stub.ready [])
              = (("04223cb332787afd53283801319c7f74",
                  "4f329fa389cba3aa9ff152da866c78e1fdf176abdd0d1aa393c2af3227ff0294",
                  None),
                 snd (GenerateIIC tt stub.fields (stub.world stub.ready []))))
    by (vm_compute; reflexivity).
  destruct (GenerateIIC_codes _ _ _ H)
    as (sb & _ & _ & _ & Hlen & _ & _ & Hlen' & _).
  split; [rewrite H; reflexivity |].
  split; [exact Hlen | exists sb; exact Hlen'].
Defined.

Lemma extraction_error_names_what_is_missing_witness :
  snd (parse stub.no_seller) = Some "can't find element //Seller"
  /\ exists elemName attrName,
      In (elemName, attrName) locators
      /\ snd (attributeOfElement elemName attrName stub.no_seller)
         = Some "can't find element //Seller"
      /\ match etree.FindElement elemName stub.no_seller with
         | None => "can't find element //Seller" = "can't find element " ++ elemName
         | Some elem =>
             etree.SelectAttr attrName (etree.load stub.no_seller elem) = None
             /\ "can't find element //Seller" = "can't find attribute " ++ attrName
         end.
Proof.
  assert (H : snd (parse stub.no_seller) = Some "can't find element //Seller")
    by (vm_compute; reflexivity).
  split; [exact H |].
  exact (extraction_error_names_what_is_missing stub.no_seller H).
Defined.

(** C3, refuted as stated: without a [Seller] element the error names the
    element path and not the attribute [IDNum]; with a [Seller] that lacks
    [IDNum] it names the attribute and not the element. *)
Lemma extraction_error_counterexample :
  snd (parse stub.no_seller) = Some "can't find element //Seller"
  /\ contains "can't find element //Seller" "IDNum" = false
  /\ snd (parse stub.no_IDNum) = Some "can't find attribute IDNum"
  /\ contains "can't find attribute IDNum" "Seller" = false.
Proof. repeat split; vm_compute; reflexivity. Qed.

Lemma swap_changes_plainIIC_witness :
  get stub.fields I0 <> get stub.fields I1
  /\ contains (get stub.fields I0) "|" = false
  /\ contains (get stub.fields I1) "|" = false
  /\ plainIIC (swap stub.fields I0 I1) <> plainIIC stub.fields.
Proof.
  assert (H : get stub.fields I0 <> get stub.fields I1) by (simpl; discriminate).
  assert (H0 : contains (get stub.fields I0) "|" = false) by reflexivity.
  assert (H1 : contains (get stub.fields I1) "|" = false) by reflexivity.
  repeat split; auto.
  exact (swap_changes_plainIIC stub.fields I0 I1 H H0 H1).
Defined.

(** C4, refuted as stated: exchanging two equal values changes nothing,
    and neither does exchanging [a|a] with [a]. *)
Lemma swap_counterexample :
  (I0 <> I1 /\ plainIIC (swap stub.all_A I0 I1) = plainIIC stub.all_A)
  /\ (get stub.piped I0 <> get stub.piped I1
      /\ plainIIC (swap stub.piped I0 I1) = plainIIC stub.piped).
Proof.
  split; split; try discriminate; vm_compute; reflexivity.
Qed.

Lemma parse_short_circuits_witness :
  existsb (absent stub.no_seller) locators = true
  /\ parse stub.no_seller = (zero7, Some "can't find element //Seller")
  /\ WriteIIC stub.params (stub.world stub.ready (stub.holding stub.no_seller))
     = (Returns (Some "can't find element //Seller"),
        log (EvReadFromFile "in.xml")
            (stub.world stub.ready (stub.holding stub.no_seller))).
Proof.
  assert (H : existsb (absent stub.no_seller) locators = true)
    by (vm_compute; reflexivity).
  destruct (parse_short_circuits (signer := stub.signer) (io := stub.io)
              stub.no_seller H)
    as (elemName & attrName & e & _ & _ & Hp & Hw).
  assert (He : e = "can't find element //Seller").
  { vm_compute in Hp. now injection Hp. }
  subst e. split; [exact H |]. split; [exact Hp |].
  apply (Hw stub.params (stub.world stub.ready (stub.holding stub.no_seller))).
  reflexivity.
Defined.

Lemma sign_failure_leaves_document_witness :
  safenet.SignPKCS1v15 (sha256IIC stub.fields) (stub.mkDevice true true 1)
  = (stub.mkDevice true true 1, ([], Some "device locked"))
  /\ fst (WriteIIC stub.params
            (stub.world stub.key_locked (stub.holding stub.request)))
     = Returns (Some "device locked")
  /\ disk (snd (WriteIIC stub.params
                  (stub.world stub.key_locked (stub.holding stub.request))))
     = stub.holding stub.request.
Proof.
  assert (Hs : safenet.SignPKCS1v15 (sha256IIC stub.fields)
                 (stub.mkDevice true true 1)
               = (stub.mkDevice true true 1, ([], Some "device locked")))
    by reflexivity.
  assert (Hr : docio.ReadFromFile (InFile stub.params)
                 (disk (stub.world stub.key_locked (stub.holding stub.request)))
               = (stub.request, None)) by reflexivity.
  assert (Hp : parse stub.request = (stub.fields, None))
    by (vm_compute; reflexivity).
  assert (Hi : safenet.Initialize (SafenetConfig stub.params)
                 (device (stub.world stub.key_locked (stub.holding stub.request)))
               = (stub.mkDevice true true 1, None)) by reflexivity.
  destruct (sign_failure_leaves_document _ _ Hr Hp Hi Hs) as (_ & Hw & Hd & _).
  split; [exact Hs |]. split; [now rewrite Hw | exact Hd].
Defined.

Lemma embed_idempotent_witness :
  etree.FindElement "//Invoice" stub.request = Some 1
  /\ etree.wellformed (etree.load stub.request 1) = true
  /\ exists doc1,
      embed "04223cb3" "4f329fa3" stub.request = Some doc1
      /\ embed "04223cb3" "4f329fa3" doc1 = Some doc1
      /\ etree.named "" "IIC" (etree.Attrs (etree.load doc1 1))
         = [etree.mkAttr "" "IIC" "04223cb3"]
      /\ etree.named "" "IICSignature" (etree.Attrs (etree.load doc1 1))
         = [etree.mkAttr "" "IICSignature" "4f329fa3"].
Proof.
  assert (Hf : etree.FindElement "//Invoice" stub.request = Some 1)
    by (vm_compute; reflexivity).
  assert (Hwf : etree.wellformed (etree.load stub.request 1) = true)
    by (vm_compute; reflexivity).
  destruct (embed_idempotent stub.request "04223cb3" "4f329fa3" Hf Hwf)
    as (doc1 & H1 & H2 & _ & H3 & H4 & _).
  repeat split; auto. exists doc1. auto.
Defined.

Lemma GenerateIIC_finalizes_once_witness :
  safenet.Initialize tt (device (stub.world stub.ready []))
  = (stub.mkDevice true false 1, None)
  /\ exists (calls : list Event) (d2 : stub.Device),
      trace (snd (GenerateIIC tt stub.fields (stub.world stub.ready [])))
      = (trace (stub.world stub.ready []) ++ calls ++ [EvFinalize])%list
      /\ existsb is_Finalize calls = false
      /\ List.length (filter is_Finalize (calls ++ [EvFinalize])) = 1
      /\ device (snd (GenerateIIC tt stub.fields (stub.world stub.ready [])))
         = safenet.Finalize d2.
Proof.
  assert (Hi : safenet.Initialize tt (device (stub.world stub.ready []))
               = (stub.mkDevice true false 1, None)) by reflexivity.
  split; [exact Hi |].
  exact (GenerateIIC_finalizes_once tt stub.fields (stub.world stub.ready []) Hi).
Defined.

Lemma GenerateIIC_deterministic_witness :
  fst (GenerateIIC tt stub.fields (stub.world stub.ready []))
  = fst (GenerateIIC tt stub.fields
           (stub.world (stub.mkDevice true false 3) (stub.holding stub.request))).
Proof.
  refine (proj1 (GenerateIIC_deterministic tt stub.fields
                   (stub.world stub.ready [])
                   (stub.world (stub.mkDevice true false 3)
                               (stub.holding stub.request))
                   (SignatureBytes := rev (sha256IIC stub.fields)) _ _ _ _));
    reflexivity.
Defined.

Lemma GenerateIIC_prints_plaintext_witness :
  safenet.Initialize tt (device (stub.world stub.key_locked []))
  = (stub.mkDevice true true 1, None)
  /\ exists rest : list Event,
      trace (snd (GenerateIIC tt stub.fields (stub.world stub.key_locked [])))
      = (trace (stub.world stub.key_locked [])
           ++ [EvInitialize tt; EvStdout ("Plain IIC: " ++ plainIIC stub.fields)]
           ++ rest)%list
      /\ existsb is_Stdout rest = false
      /\ In (EvSignPKCS1v15 (sha256IIC stub.fields)) rest.
Proof.
  assert (Hi : safenet.Initialize tt (device (stub.world stub.key_locked []))
               = (stub.mkDevice true true 1, None)) by reflexivity.
  split; [exact Hi |].
  exact (GenerateIIC_prints_plaintext tt stub.fields
           (stub.world stub.key_locked []) Hi).
Defined.
End Runs.

(** ** More on field extraction *)

Section ParseTheory.
Import etree.
Local Open Scope string_scope.

Implicit Types (doc : Document) (fields : array7) (i : index7).

Lemma locators_by_index : locators = map locator [I0; I1; I2; I3; I4; I5; I6].
Proof. reflexivity. Qed.

Lemma locator_In i : In (locator i) locators.
Proof. destruct i; simpl; tauto. Qed.

Lemma existsb_false_find (A : Type) (f : A -> bool) (l : list A) :
  existsb f l = false <-> find f l = None.
Proof.
  induction l as [|x l IH]; simpl; [tauto |].
  destruct (f x); simpl; [split; discriminate | exact IH].
Qed.

Lemma parse_ok_find doc :
  snd (parse doc) = None <-> find (absent doc) locators = None.
Proof.
  rewrite parse_spec.
  destruct (find (absent doc) locators) as [[s a]|] eqn:Hf; cbn [snd].
  - apply find_some in Hf as [_ Habs].
    destruct (attributeOfElement_absent _ _ _ Habs) as [e ->].
    split; discriminate.
  - tauto.
Qed.

Lemma parse_ok_present doc fields i :
  parse doc = (fields, None) -> absent doc (locator i) = false.
Proof.
  intros Hp. apply (find_none (absent doc) locators); [| apply locator_In].
  apply parse_ok_find. now rewrite Hp.
Qed.

(** A document that parses has an [Invoice] element. *)
Lemma parse_ok_Invoice doc fields :
  parse doc = (fields, None) ->
  exists elem, FindElement "//Invoice" doc = Some elem.
Proof.
  intros Hp. pose proof (@parse_ok_present doc fields I1 Hp) as H.
  unfold absent in H. cbn [locator fst snd] in H.
  destruct (FindElement "//Invoice" doc) as [elem|]; [eauto | discriminate].
Qed.

(** X1: [parse] returns no error exactly when every one of the seven
    locators finds its element and, on it, its attribute. *)
Theorem parse_succeeds_iff doc :
  snd (parse doc) = None <-> existsb (absent doc) locators = false.
Proof.
  rewrite existsb_false_find, parse_spec.
  destruct (find (absent doc) locators) as [[s a]|] eqn:Hf; cbn [snd].
  - apply find_some in Hf as [_ Habs].
    destruct (attributeOfElement_absent _ _ _ Habs) as [e ->].
    split; discriminate.
  - tauto.
Qed.

(** X2: when [parse] succeeds, the value at each position of the array is
    the value of the first attribute that matches the position's attribute
    name, on the first element that matches its element path. *)
Theorem parse_fields doc fields i :
  parse doc = (fields, None) ->
  exists elem attr,
    FindElement (fst (locator i)) doc = Some elem
    /\ SelectAttr (snd (locator i)) (load doc elem) = Some attr
    /\ get fields i = Value attr.
Proof.
  intros Hp.
  assert (Hnone : find (absent doc) locators = None).
  { apply parse_ok_find. now rewrite Hp. }
  rewrite parse_spec, Hnone in Hp. injection Hp as <-.
  pose proof (find_none _ _ Hnone _ (locator_In i)) as Hi.
  unfold absent in Hi.
  destruct (FindElement (fst (locator i)) doc) as [elem|] eqn:Hf; [| discriminate].
  destruct (SelectAttr (snd (locator i)) (load doc elem)) as [attr|] eqn:Hs;
    [| discriminate].
  exists elem, attr. split; [reflexivity |]. split; [exact Hs |].
  destruct i; cbn [get at0 at1 at2 at3 at4 at5 at6 locator fst snd] in *;
    rewrite attributeOfElement_spec, Hf, Hs; reflexivity.
Qed.
End ParseTheory.

(** ** More on the "Save" step *)

Section SaveTheory.
Import etree.
Local Open Scope string_scope.

Implicit Types (l : list Attr) (a : Attr) (doc : Document) (e : Element).

Lemma filter_remove_first (f g : Attr -> bool) l :
  (forall a, f a = true -> g a = false) ->
  filter g (remove_first f l) = filter g l.
Proof.
  intros H. induction l as [|a l IH]; simpl; [reflexivity |].
  destruct (f a) eqn:E; simpl.
  - now rewrite (H a E).
  - now rewrite IH.
Qed.

Lemma filter_createAttr (g : Attr -> bool) space key value l :
  (forall a, same_name space key a = true -> g a = false) ->
  filter g (createAttr space key value l) = filter g l.
Proof.
  intros H. induction l as [|a l IH]; simpl.
  - now rewrite (H _ (same_name_mkAttr space key value)).
  - destruct (same_name space key a) eqn:E; simpl.
    + rewrite (H a E). apply same_name_iff in E. injection E as Hs Hk.
      rewrite Hs, Hk. now rewrite (H _ (same_name_mkAttr space key value)).
    + now rewrite IH.
Qed.

Lemma find_createAttr space key value l :
  find (same_name space key) (createAttr space key value l)
  = Some (mkAttr space key value).
Proof.
  induction l as [|a l IH]; simpl.
  - now rewrite same_name_mkAttr.
  - destruct (same_name space key a) eqn:E; simpl.
    + apply same_name_iff in E. injection E as -> ->.
      now rewrite same_name_mkAttr.
    + now rewrite E.
Qed.

Lemma find_remove_first (f g : Attr -> bool) l :
  (forall a, f a = true -> g a = false) ->
  find g (remove_first f l) = find g l.
Proof.
  intros H. induction l as [|a l IH]; simpl; [reflexivity |].
  destruct (f a) eqn:E; simpl.
  - now rewrite (H a E).
  - now rewrite IH.
Qed.

Lemma find_createAttr_other (g : Attr -> bool) space key value l :
  (forall a, same_name space key a = true -> g a = false) ->
  find g (createAttr space key value l) = find g l.
Proof.
  intros H. induction l as [|a l IH]; simpl.
  - now rewrite (H _ (same_name_mkAttr space key value)).
  - destruct (same_name space key a) eqn:E; simpl.
    + rewrite (H a E). apply same_name_iff in E. injection E as Hs Hk.
      rewrite Hs, Hk. now rewrite (H _ (same_name_mkAttr space key value)).
    + now rewrite IH.
Qed.

Lemma find_filter (f g : Attr -> bool) l :
  (forall a, f a = true -> g a = true) ->
  find f (filter g l) = find f l.
Proof.
  intros H. induction l as [|a l IH]; simpl; [reflexivity |].
  destruct (g a) eqn:Eg; simpl.
  - now rewrite IH.
  - destruct (f a) eqn:Ef; [| exact IH]. rewrite (H a Ef) in Eg. discriminate.
Qed.

Lemma IIC_not_IICSignature a :
  same_name "" "IIC" a = true -> same_name "" "IICSignature" a = false.
Proof.
  intros H. apply same_name_iff in H.
  destruct (same_name "" "IICSignature" a) eqn:E; [| reflexivity].
  apply same_name_iff in E. congruence.
Qed.

Lemma IICSignature_not_IIC a :
  same_name "" "IICSignature" a = true -> same_name "" "IIC" a = false.
Proof.
  intros H. destruct (same_name "" "IIC" a) eqn:E; [| reflexivity].
  apply IIC_not_IICSignature in E. congruence.
Qed.

Lemma IIC_is_a_code a : same_name "" "IIC" a = true -> not_a_code a = false.
Proof. unfold not_a_code. now intros ->. Qed.

Lemma IICSignature_is_a_code a :
  same_name "" "IICSignature" a = true -> not_a_code a = false.
Proof. unfold not_a_code. intros ->. apply andb_false_r. Qed.

(** The four calls on one element: what they keep and what they set. *)
Lemma saved_keeps IIC IICSignature e :
  filter not_a_code (Attrs (saved IIC IICSignature e))
  = filter not_a_code (Attrs e).
Proof.
  unfold saved, CreateAttr, RemoveAttr. cbn.
  rewrite filter_createAttr by apply IICSignature_is_a_code.
  rewrite filter_remove_first by apply IICSignature_is_a_code.
  rewrite filter_createAttr by apply IIC_is_a_code.
  now rewrite filter_remove_first by apply IIC_is_a_code.
Qed.

Lemma saved_sets IIC IICSignature e :
  find (same_name "" "IIC") (Attrs (saved IIC IICSignature e))
  = Some (mkAttr "" "IIC" IIC)
  /\ find (same_name "" "IICSignature") (Attrs (saved IIC IICSignature e))
     = Some (mkAttr "" "IICSignature" IICSignature).
Proof.
  unfold saved, CreateAttr, RemoveAttr. cbn. split.
  - rewrite find_createAttr_other by apply IICSignature_not_IIC.
    rewrite find_remove_first by apply IICSignature_not_IIC.
    apply find_createAttr.
  - apply find_createAttr.
Qed.

Lemma length_update (f : Element -> Element) doc p :
  List.length (update p f doc) = List.length doc.
Proof.
  revert p. induction doc as [|x doc IH]; intros [|q]; simpl; auto.
Qed.

(** The "Save" step succeeds exactly on the documents with an [Invoice]
    element, and then changes that element alone. *)
Lemma embed_inv IIC IICSignature doc doc1 :
  embed IIC IICSignature doc = Some doc1 ->
  exists elem,
    FindElement "//Invoice" doc = Some elem
    /\ doc1 = update elem (saved IIC IICSignature) doc.
Proof.
  destruct (FindElement "//Invoice" doc) as [p|] eqn:Hf.
  - rewrite (embed_found _ _ _ Hf). intros [= <-]. eauto.
  - unfold embed, through. now rewrite Hf.
Qed.

(** X3: the "Save" step of [WriteIIC] changes nothing but the [IIC] and
    [IICSignature] attributes of the first [Invoice] element: the document
    keeps its elements, every other element is as it was, and the [Invoice]
    element keeps its name and, in their order, all its other attributes. *)
Theorem embed_frame (IIC IICSignature : string) doc doc1 :
  embed IIC IICSignature doc = Some doc1 ->
  exists elem,
    FindElement "//Invoice" doc = Some elem
    /\ FindElement "//Invoice" doc1 = Some elem
    /\ List.length doc1 = List.length doc
    /\ (forall q, q <> elem -> load doc1 q = load doc q)
    /\ ESpace (load doc1 elem) = ESpace (load doc elem)
    /\ Tag (load doc1 elem) = Tag (load doc elem)
    /\ filter not_a_code (Attrs (load doc1 elem))
       = filter not_a_code (Attrs (load doc elem)).
Proof.
  intros He. destruct (embed_inv _ _ _ He) as (elem & Hf & ->).
  pose proof (FindElement_lt _ _ Hf) as Hlt.
  exists elem. rewrite load_update by exact Hlt.
  rewrite FindElement_update by (intros e; apply saved_names).
  repeat split; auto using length_update, saved_keeps.
  intros q Hq. now apply load_update_other.
Qed.

(** X4: after the "Save" step, whatever attributes the [Invoice] element
    had, duplicates included, the first attribute named [IIC] holds the new
    code and the first named [IICSignature] the new signature. *)
Theorem embed_sets_codes (IIC IICSignature : string) doc doc1 :
  embed IIC IICSignature doc = Some doc1 ->
  exists elem,
    FindElement "//Invoice" doc1 = Some elem
    /\ find (same_name "" "IIC") (Attrs (load doc1 elem))
       = Some (mkAttr "" "IIC" IIC)
    /\ find (same_name "" "IICSignature") (Attrs (load doc1 elem))
       = Some (mkAttr "" "IICSignature" IICSignature).
Proof.
  intros He. destruct (embed_inv _ _ _ He) as (elem & Hf & ->).
  pose proof (FindElement_lt _ _ Hf) as Hlt.
  exists elem. rewrite load_update by exact Hlt.
  rewrite FindElement_update by (intros e; apply saved_names).
  split; [exact Hf | apply saved_sets].
Qed.
End SaveTheory.

(** ** Reading back a saved document *)

Section ReparseTheory.
Import etree.
Local Open Scope string_scope.

Implicit Types (a : Attr) (doc : Document) (e : Element).

Lemma selects_key key a :
  selects key a = true -> Key a = snd (spaceDecompose key).
Proof.
  unfold selects. destruct (spaceDecompose key) as [space skey]. cbn [snd].
  rewrite andb_true_iff, String.eqb_eq. now intros [_ ->].
Qed.

Lemma selects_not_a_code key a :
  snd (spaceDecompose key) <> "IIC" ->
  snd (spaceDecompose key) <> "IICSignature" ->
  selects key a = true -> not_a_code a = true.
Proof.
  intros H1 H2 Hs. apply selects_key in Hs. rewrite <- Hs in H1, H2.
  unfold not_a_code, same_name.
  apply String.eqb_neq in H1, H2.
  rewrite (String.eqb_sym "IIC"), (String.eqb_sym "IICSignature"), H1, H2.
  now rewrite !andb_false_r.
Qed.

(** The codes do not get in the way of the other attributes. *)
Lemma SelectAttr_saved key IIC IICSignature e :
  snd (spaceDecompose key) <> "IIC" ->
  snd (spaceDecompose key) <> "IICSignature" ->
  SelectAttr key (saved IIC IICSignature e) = SelectAttr key e.
Proof.
  intros H1 H2. unfold SelectAttr.
  rewrite <- (find_filter (selects key) not_a_code (Attrs e))
    by (intros a; now apply selects_not_a_code).
  rewrite <- (find_filter (selects key) not_a_code
                (Attrs (saved IIC IICSignature e)))
    by (intros a; now apply selects_not_a_code).
  now rewrite saved_keeps.
Qed.

Lemma attributeOfElement_embed elemName attrName IIC IICSignature doc doc1 :
  embed IIC IICSignature doc = Some doc1 ->
  snd (spaceDecompose attrName) <> "IIC" ->
  snd (spaceDecompose attrName) <> "IICSignature" ->
  attributeOfElement elemName attrName doc1
  = attributeOfElement elemName attrName doc.
Proof.
  intros He H1 H2. destruct (embed_inv _ _ _ He) as (elem & Hf & ->).
  rewrite !attributeOfElement_spec.
  rewrite FindElement_update by (intros e; apply saved_names).
  destruct (FindElement elemName doc) as [q|] eqn:Hq; [| reflexivity].
  destruct (Nat.eq_dec q elem) as [-> | Hne].
  - rewrite load_update by (eapply FindElement_lt; eassumption).
    now rewrite SelectAttr_saved.
  - now rewrite load_update_other.
Qed.

(** X5: the document that the "Save" step produces reads back as the
    document did: [parse] returns the same seven fields, or the same error. *)
Theorem parse_embed (IIC IICSignature : string) doc doc1 :
  embed IIC IICSignature doc = Some doc1 -> parse doc1 = parse doc.
Proof.
  intros He. unfold parse.
  rewrite !(attributeOfElement_embed _ _ _ _ _ He)
    by (cbn; discriminate).
  reflexivity.
Qed.
End ReparseTheory.

(** ** Every run of [GenerateIIC] and [WriteIIC] *)

Section RunTheory.
Context {Config Dev FS : Type}.
Context {signer : safenet.SafeNet Config Dev} {io : docio.DocumentIO FS}.
Local Open Scope string_scope.

Implicit Types (w : World (Config := Config) (Dev := Dev) (FS := FS)).
Implicit Types (p : Params (Config := Config)) (doc : etree.Document).
Implicit Types (cfg : Config) (params : array7) (e : error).

(** What a call of [GenerateIIC] asks of its collaborators. *)
Lemma GenerateIIC_run cfg params w :
  trace (snd (GenerateIIC cfg params w))
  = (trace w
       ++ match snd (safenet.Initialize cfg (device w)) with
          | Some _ => [EvInitialize cfg]
          | None => [EvInitialize cfg;
                     EvStdout ("Plain IIC: " ++ plainIIC params);
                     EvSignPKCS1v15 (sha256IIC params);
                     EvFinalize]
          end)%list
  /\ disk (snd (GenerateIIC cfg params w)) = disk w.
Proof.
  destruct (safenet.Initialize cfg (device w)) as [d1 [e|]] eqn:Hi; cbn [snd].
  - rewrite (GenerateIIC_init_fails _ params _ Hi). split; reflexivity.
  - destruct (GenerateIIC_trace cfg params w Hi) as (Ht & Hd & _). auto.
Qed.

Lemma GenerateIIC_ok_inv cfg params w IIC IICSignature w1 :
  GenerateIIC cfg params w = ((IIC, IICSignature, None), w1) ->
  exists d1 d2 sig,
    safenet.Initialize cfg (device w) = (d1, None)
    /\ safenet.SignPKCS1v15 (sha256IIC params) d1 = (d2, (sig, None))
    /\ IIC = hex.EncodeToString (md5.Sum sig)
    /\ IICSignature = hex.EncodeToString sig
    /\ device w1 = safenet.Finalize d2.
Proof.
  destruct (safenet.Initialize cfg (device w)) as [d1 [e1|]] eqn:Hi.
  - rewrite (GenerateIIC_init_fails _ params _ Hi). discriminate.
  - destruct (safenet.SignPKCS1v15 (sha256IIC params) d1) as [d2 [sig [e2|]]] eqn:Hs.
    + rewrite (GenerateIIC_sign_fails _ _ _ Hi Hs). discriminate.
    + rewrite (GenerateIIC_succeeds _ _ _ Hi Hs). intros [= <- <- <-].
      exists d1, d2, sig. auto.
Qed.

(** X6: [GenerateIIC] opens the session first. If that fails it does
    nothing more: no output, no signature request, no [Finalize]. Otherwise
    it prints the plaintext, asks for exactly one signature, that of the
    32-byte SHA-256 digest of the plaintext, and closes the session. It never
    reads or writes a file. *)
Theorem GenerateIIC_calls cfg params w :
  trace (snd (GenerateIIC cfg params w))
  = (trace w
       ++ match snd (safenet.Initialize cfg (device w)) with
          | Some _ => [EvInitialize cfg]
          | None => [EvInitialize cfg;
                     EvStdout ("Plain IIC: " ++ plainIIC params);
                     EvSignPKCS1v15 (sha256IIC params);
                     EvFinalize]
          end)%list
  /\ sha256IIC params = sha256.Sum (bytes_of_string (plainIIC params))
  /\ List.length (sha256IIC params) = 32
  /\ disk (snd (GenerateIIC cfg params w)) = disk w.
Proof.
  destruct (GenerateIIC_run cfg params w) as [Ht Hd].
  split; [exact Ht |]. split; [apply sha256IIC_eq |].
  split; [| exact Hd].
  rewrite sha256IIC_eq. apply sha256_Sum_length.
Qed.

(** The four ways a call of [WriteIIC] goes. *)
Lemma WriteIIC_cases p w :
  let w0 := log (EvReadFromFile (InFile p)) w in
  (exists doc e,
      docio.ReadFromFile (InFile p) (disk w) = (doc, Some e)
      /\ WriteIIC p w = (Returns (Some e), w0))
  \/ (exists doc fields e,
         docio.ReadFromFile (InFile p) (disk w) = (doc, None)
         /\ parse doc = (fields, Some e)
         /\ WriteIIC p w = (Returns (Some e), w0))
  \/ (exists doc parsed IIC IICSignature e w1,
         docio.ReadFromFile (InFile p) (disk w) = (doc, None)
         /\ parse doc = (parsed, None)
         /\ GenerateIIC (SafenetConfig p) parsed w0
            = ((IIC, IICSignature, Some e), w1)
         /\ WriteIIC p w = (Returns (Some e), w1))
  \/ (exists doc parsed IIC IICSignature w1 doc1,
         docio.ReadFromFile (InFile p) (disk w) = (doc, None)
         /\ parse doc = (parsed, None)
         /\ GenerateIIC (SafenetConfig p) parsed w0
            = ((IIC, IICSignature, None), w1)
         /\ embed IIC IICSignature doc = Some doc1
         /\ WriteIIC p w
            = (Returns (snd (docio.WriteToFile (OutFile p) doc1 (disk w1))),
               mkWorld (device w1)
                       (fst (docio.WriteToFile (OutFile p) doc1 (disk w1)))
                       (trace w1 ++ [EvWriteToFile (OutFile p) doc1]))).
Proof.
  intros w0.
  destruct (docio.ReadFromFile (InFile p) (disk w)) as [doc [e|]] eqn:Hr.
  { left. exists doc, e. split; [reflexivity |]. eapply WriteIIC_read_fails; eauto. }
  destruct (parse doc) as [parsed [e|]] eqn:Hp.
  { right; left. exists doc, parsed, e.
    split; [reflexivity |]. split; [exact Hp |].
    eapply WriteIIC_parse_fails; eauto. }
  destruct (GenerateIIC (SafenetConfig p) parsed w0)
    as [[[IIC IICSignature] [e|]] w1] eqn:Hg.
  { right; right; left. exists doc, parsed, IIC, IICSignature, e, w1.
    split; [reflexivity |]. split; [exact Hp |]. split; [exact Hg |].
    eapply WriteIIC_generate_fails; eauto. }
  right; right; right.
  destruct (parse_ok_Invoice _ Hp) as [elem Hf].
  pose proof (embed_found IIC IICSignature _ Hf) as He.
  exists doc, parsed, IIC, IICSignature, w1, (etree.update elem (saved IIC IICSignature) doc).
  split; [reflexivity |]. split; [exact Hp |]. split; [exact Hg |].
  split; [exact He |].
  eapply WriteIIC_saves; eauto.
Qed.


(** X8: [WriteIIC] reads the input file first and touches the file system
    at most once more: a single write of the output file, as the last thing
    it does. When it returns an error before that write, the file system is
    as it was. *)
Theorem WriteIIC_writes_last p w :
  exists new : list Event,
    trace (snd (WriteIIC p w))
    = (trace w ++ EvReadFromFile (InFile p) :: new)%list
    /\ ((existsb is_file new = false
         /\ disk (snd (WriteIIC p w)) = disk w
         /\ exists e, fst (WriteIIC p w) = Returns (Some e))
        \/ (exists calls doc1,
               new = (calls ++ [EvWriteToFile (OutFile p) doc1])%list
               /\ existsb is_file calls = false
               /\ disk (snd (WriteIIC p w))
                  = fst (docio.WriteToFile (OutFile p) doc1 (disk w))
               /\ fst (WriteIIC p w)
                  = Returns (snd (docio.WriteToFile (OutFile p) doc1 (disk w))))).
Proof.
  destruct (WriteIIC_cases p w)
    as [(doc & e & _ & ->) | [(doc & fields & e & _ & _ & ->)
        | [(doc & parsed & IIC & IICSignature & e & w1 & _ & _ & Hg & ->)
          | (doc & parsed & IIC & IICSignature & w1 & doc1 & _ & _ & Hg & _ & ->)]]].
  - exists []. split; [reflexivity |]. left. cbn. eauto.
  - exists []. split; [reflexivity |]. left. cbn. eauto.
  - destruct (GenerateIIC_run (SafenetConfig p) parsed
                (log (EvReadFromFile (InFile p)) w)) as [Ht Hd].
    rewrite Hg in Ht, Hd. cbn [fst snd] in *.
    eexists. split.
    { rewrite Ht. cbn [log trace]. rewrite <- app_assoc. reflexivity. }
    left. split; [| split; [exact Hd | eauto]].
    destruct (snd (safenet.Initialize (SafenetConfig p)
                     (device (log (EvReadFromFile (InFile p)) w))));
      reflexivity.
  - destruct (GenerateIIC_run (SafenetConfig p) parsed
                (log (EvReadFromFile (InFile p)) w)) as [Ht Hd].
    rewrite Hg in Ht, Hd. cbn [fst snd log disk] in *.
    eexists. split.
    { cbn [trace]. rewrite Ht. cbn [log trace].
      rewrite <- !app_assoc. reflexivity. }
    right. eexists _, doc1. split; [reflexivity |].
    rewrite Hd. repeat split.
    destruct (snd (safenet.Initialize (SafenetConfig p)
                     (device (log (EvReadFromFile (InFile p)) w))));
      reflexivity.
Qed.
End RunTheory.

(** ** [WriteIIC] from end to end *)

Section EndToEnd.
Context {Config Dev FS : Type}.
Context {signer : safenet.SafeNet Config Dev} {io : docio.DocumentIO FS}.
Import etree.
Local Open Scope string_scope.

Implicit Types (w : World (Config := Config) (Dev := Dev) (FS := FS)).
Implicit Types (p : Params (Config := Config)) (doc : Document).

(** X9: when the input file loads and parses, the session opens and the
    device signs, [WriteIIC] hands to the output file the input document
    with, on its [Invoice] element, [IIC] set to the hex of the MD5 of the
    signature and [IICSignature] set to the hex of the signature; it returns
    what the write returns, after read, session, print, signature, release
    and write, in that order. *)
Theorem WriteIIC_success p w doc parsed d1 d2 (sig : bytes) :
  docio.ReadFromFile (InFile p) (disk w) = (doc, None) ->
  parse doc = (parsed, None) ->
  safenet.Initialize (SafenetConfig p) (device w) = (d1, None) ->
  safenet.SignPKCS1v15 (sha256IIC parsed) d1 = (d2, (sig, None)) ->
  exists elem doc1,
    FindElement "//Invoice" doc = Some elem
    /\ embed (hex.EncodeToString (md5.Sum sig)) (hex.EncodeToString sig) doc
       = Some doc1
    /\ find (same_name "" "IIC") (Attrs (load doc1 elem))
       = Some (mkAttr "" "IIC" (hex.EncodeToString (md5.Sum sig)))
    /\ find (same_name "" "IICSignature") (Attrs (load doc1 elem))
       = Some (mkAttr "" "IICSignature" (hex.EncodeToString sig))
    /\ WriteIIC p w
       = (Returns (snd (docio.WriteToFile (OutFile p) doc1 (disk w))),
          mkWorld (safenet.Finalize d2)
            (fst (docio.WriteToFile (OutFile p) doc1 (disk w)))
            (trace w ++ [EvReadFromFile (InFile p);
                         EvInitialize (SafenetConfig p);
                         EvStdout ("Plain IIC: " ++ plainIIC parsed);
                         EvSignPKCS1v15 (sha256IIC parsed);
                         EvFinalize;
                         EvWriteToFile (OutFile p) doc1])).
Proof.
  intros Hr Hp Hi Hs.
  destruct (parse_ok_Invoice _ Hp) as [elem Hf].
  pose proof (embed_found (hex.EncodeToString (md5.Sum sig))
                (hex.EncodeToString sig) _ Hf) as He.
  pose proof (FindElement_lt _ _ Hf) as Hlt.
  exists elem. eexists. split; [exact Hf |]. split; [exact He |].
  rewrite load_update by exact Hlt.
  destruct (saved_sets (hex.EncodeToString (md5.Sum sig))
              (hex.EncodeToString sig) (load doc elem)) as [H1 H2].
  split; [exact H1 |]. split; [exact H2 |].
  assert (Hg : GenerateIIC (SafenetConfig p) parsed
                 (log (EvReadFromFile (InFile p)) w)
               = ((hex.EncodeToString (md5.Sum sig), hex.EncodeToString sig, None),
                  mkWorld (safenet.Finalize d2) (disk w)
                    ((trace w ++ [EvReadFromFile (InFile p)])
                       ++ [EvInitialize (SafenetConfig p);
                           EvStdout ("Plain IIC: " ++ plainIIC parsed);
                           EvSignPKCS1v15 (sha256IIC parsed);
                           EvFinalize]))).
  { exact (GenerateIIC_succeeds (SafenetConfig p) parsed
             (log (EvReadFromFile (InFile p)) w) Hi Hs). }
  rewrite (WriteIIC_saves _ _ Hr Hp Hg He). cbn [device disk trace].
  rewrite <- !app_assoc. reflexivity.
Qed.

(** X10: [WriteIIC] returns [nil] only when everything has been done: the
    input was read and parsed, the session opened, the device signed, and
    the write of the document carrying the two codes succeeded; the file
    system is then the one that write left. *)
Theorem WriteIIC_nil_means_saved p w :
  fst (WriteIIC p w) = Returns None ->
  exists doc parsed (sig : bytes) doc1,
    docio.ReadFromFile (InFile p) (disk w) = (doc, None)
    /\ parse doc = (parsed, None)
    /\ snd (safenet.Initialize (SafenetConfig p) (device w)) = None
    /\ snd (safenet.SignPKCS1v15 (sha256IIC parsed)
              (fst (safenet.Initialize (SafenetConfig p) (device w))))
       = (sig, None)
    /\ embed (hex.EncodeToString (md5.Sum sig)) (hex.EncodeToString sig) doc
       = Some doc1
    /\ docio.WriteToFile (OutFile p) doc1 (disk w)
       = (disk (snd (WriteIIC p w)), None).
Proof.
  destruct (WriteIIC_cases p w)
    as [(doc & e & _ & ->) | [(doc & fields & e & _ & _ & ->)
        | [(doc & parsed & IIC & IICSignature & e & w1 & _ & _ & _ & ->)
          | (doc & parsed & IIC & IICSignature & w1 & doc1 & Hr & Hp & Hg & He & ->)]]];
    cbn [fst snd]; try discriminate.
  intros [= Hw].
  destruct (GenerateIIC_run (SafenetConfig p) parsed
              (log (EvReadFromFile (InFile p)) w)) as [_ Hd].
  rewrite Hg in Hd. cbn [snd log disk] in Hd.
  destruct (GenerateIIC_ok_inv _ _ _ Hg) as (d1 & d2 & sig & Hi & Hs & -> & -> & _).
  cbn [log device] in Hi.
  exists doc, parsed, sig, doc1.
  rewrite Hi. cbn [fst snd]. rewrite Hs. cbn [snd disk].
  rewrite Hd in *.
  repeat (split; [first [reflexivity | assumption] |]).
  destruct (docio.WriteToFile (OutFile p) doc1 (disk w)) as [fs err].
  cbn [fst snd] in *. now subst.
Qed.
End EndToEnd.

(** ** What the plaintext and the hex strings determine *)

Section Encodings.
Local Open Scope string_scope.

Lemma append_assoc3 (s t u : string) : (s ++ t) ++ u = s ++ t ++ u.
Proof. induction s as [|c s IH]; simpl; [reflexivity | now rewrite IH]. Qed.

Lemma delimited_split (a b r r' : string) :
  contains a "|" = false -> contains b "|" = false ->
  a ++ String "|" r = b ++ String "|" r' -> a = b /\ r = r'.
Proof.
  intros Ha Hb H. pose proof (delimited_inj _ _ _ _ Ha Hb H) as ->.
  split; [reflexivity |]. apply append_inv_head in H. now injection H.
Qed.

(** X11: when none of the first six fields contains the delimiter [|],
    the plaintext determines the seven fields: two such arrays with the
    same plaintext are equal. *)
Theorem plainIIC_injective (a b : array7) :
  delimiter_free a = true -> delimiter_free b = true ->
  plainIIC a = plainIIC b -> a = b.
Proof.
  destruct a as [a0 a1 a2 a3 a4 a5 a6], b as [b0 b1 b2 b3 b4 b5 b6].
  unfold delimiter_free. cbn [forallb get at0 at1 at2 at3 at4 at5].
  rewrite !andb_true_iff, !negb_true_iff.
  intros (Ha0 & Ha1 & Ha2 & Ha3 & Ha4 & Ha5 & _)
         (Hb0 & Hb1 & Hb2 & Hb3 & Hb4 & Hb5 & _).
  rewrite !plainIIC_eq. cbn [append]. intros H.
  apply delimited_split in H as [-> H]; [| assumption ..].
  apply delimited_split in H as [-> H]; [| assumption ..].
  apply delimited_split in H as [-> H]; [| assumption ..].
  apply delimited_split in H as [-> H]; [| assumption ..].
  apply delimited_split in H as [-> H]; [| assumption ..].
  apply delimited_split in H as [-> ->]; [| assumption ..].
  reflexivity.
Qed.

(** X12: the plaintext does not tell a delimiter inside a field from the
    delimiter between two fields: moving the boundary between the first two
    fields across a [|] gives another array with the same plaintext. *)
Theorem plainIIC_ambiguous (x y z a2 a3 a4 a5 a6 : string) :
  mkArray7 (x ++ "|" ++ y) z a2 a3 a4 a5 a6
  <> mkArray7 x (y ++ "|" ++ z) a2 a3 a4 a5 a6
  /\ plainIIC (mkArray7 (x ++ "|" ++ y) z a2 a3 a4 a5 a6)
     = plainIIC (mkArray7 x (y ++ "|" ++ z) a2 a3 a4 a5 a6).
Proof.
  split.
  - intros [= H _]. apply (f_equal String.length) in H.
    rewrite length_append in H. simpl in H. lia.
  - rewrite !plainIIC_eq. cbn [append].
    rewrite !append_assoc3. cbn [append]. reflexivity.
Qed.

Lemma hex_byte (c : byte) :
  match hex.fromHexChar (hex.digit (N.shiftr (Byte.to_N c) 4)),
        hex.fromHexChar (hex.digit (N.land (Byte.to_N c) 15)) with
  | Some h, Some l => Byte.of_N (h * 16 + l)
  | _, _ => None
  end = Some c.
Proof. destruct c; reflexivity. Qed.

Lemma hex_decode_encode (b : bytes) :
  hex.DecodeString (hex.EncodeToString b) = Some b.
Proof.
  induction b as [|c b IH]; [reflexivity |].
  cbn [hex.EncodeToString hex.DecodeString]. rewrite IH.
  pose proof (hex_byte c) as H.
  destruct (hex.fromHexChar (hex.digit (N.shiftr (Byte.to_N c) 4))) as [h|];
    [| discriminate].
  destruct (hex.fromHexChar (hex.digit (N.land (Byte.to_N c) 15))) as [l|];
    [| discriminate].
  now rewrite H.
Qed.

(** X13: the hex string that [GenerateIIC] returns for a signature decodes
    back to the signature bytes, so two signatures with the same
    [IICSignature] string are the same bytes. *)
Theorem IICSignature_round_trip :
  (forall b : bytes,
      hex.DecodeString (fmt.Sprintf "%x" [fmt.Bytes b]) = Some b)
  /\ (forall b b' : bytes,
         fmt.Sprintf "%x" [fmt.Bytes b] = fmt.Sprintf "%x" [fmt.Bytes b'] ->
         b = b').
Proof.
  assert (H : forall b : bytes,
             hex.DecodeString (fmt.Sprintf "%x" [fmt.Bytes b]) = Some b).
  { intros b. rewrite Sprintf_x. apply hex_decode_encode. }
  split; [exact H |].
  intros b b' Heq. pose proof (H b) as Hb. rewrite Heq, H in Hb.
  now injection Hb.
Qed.
End Encodings.

(** ** First match wins *)

Section FirstMatch.
Import etree.
Local Open Scope string_scope.

Implicit Types (doc more : Document) (fields : array7).

Lemma find_index_app (A : Type) (f : A -> bool) (l m : list A) (n : nat) :
  find_index f l = Some n -> find_index f (l ++ m)%list = Some n.
Proof.
  revert n. induction l as [|x l IH]; simpl; [discriminate |].
  intros n. destruct (f x); [auto |].
  destruct (find_index f l) as [k|]; simpl; [| discriminate].
  intros [= <-]. now rewrite (IH k eq_refl).
Qed.

Lemma FindElement_app path doc more p :
  FindElement path doc = Some p -> FindElement path (doc ++ more)%list = Some p.
Proof.
  unfold FindElement. destruct path as [|c1 [|c2 name]]; try discriminate.
  destruct ((c1 =? "/") && (c2 =? "/"))%char; [| discriminate].
  destruct (spaceDecompose name). apply find_index_app.
Qed.

Lemma load_app doc more p :
  p < List.length doc -> load (doc ++ more)%list p = load doc p.
Proof. intros H. unfold load. now apply app_nth1. Qed.

Lemma attributeOfElement_app elemName attrName doc more :
  absent doc (elemName, attrName) = false ->
  attributeOfElement elemName attrName (doc ++ more)%list
  = attributeOfElement elemName attrName doc.
Proof.
  unfold absent. cbn [fst snd]. rewrite !attributeOfElement_spec.
  destruct (FindElement elemName doc) as [p|] eqn:Hf; [| discriminate].
  intros _. rewrite (FindElement_app _ _ more Hf).
  now rewrite load_app by (eapply FindElement_lt; eassumption).
Qed.

(** X14: only the first element that matches a path counts: once a
    document parses, elements that come later in the search order, further
    [Seller] and [Invoice] elements included, do not change the seven
    fields. *)
Theorem parse_first_match doc more fields :
  parse doc = (fields, None) -> parse (doc ++ more)%list = (fields, None).
Proof.
  intros Hp. rewrite <- Hp. unfold parse.
  rewrite (attributeOfElement_app _ _ _ more (@parse_ok_present doc fields I0 Hp)).
  rewrite (attributeOfElement_app _ _ _ more (@parse_ok_present doc fields I1 Hp)).
  rewrite (attributeOfElement_app _ _ _ more (@parse_ok_present doc fields I2 Hp)).
  rewrite (attributeOfElement_app _ _ _ more (@parse_ok_present doc fields I3 Hp)).
  rewrite (attributeOfElement_app _ _ _ more (@parse_ok_present doc fields I4 Hp)).
  rewrite (attributeOfElement_app _ _ _ more (@parse_ok_present doc fields I5 Hp)).
  rewrite (attributeOfElement_app _ _ _ more (@parse_ok_present doc fields I6 Hp)).
  reflexivity.
Qed.
End FirstMatch.

(** ** Padding *)

Section Padding.




End Padding.

(** ** More runs on the test doubles *)

Section MoreRuns.
Import etree.
Local Open Scope string_scope.

Lemma parse_fields_witness :
  parse stub.request = (stub.fields, None)
  /\ exists elem attr,
      FindElement (fst (locator I6)) stub.request = Some elem
      /\ SelectAttr (snd (locator I6)) (load stub.request elem) = Some attr
      /\ get stub.fields I6 = Value attr.
Proof.
  assert (H : parse stub.request = (stub.fields, None))
    by (vm_compute; reflexivity).
  split; [exact H |]. exact (@parse_fields stub.request stub.fields I6 H).
Defined.

Lemma embed_frame_witness :
  embed "04223cb3" "4f329fa3" stub.request
  = Some (update 1 (saved "04223cb3" "4f329fa3") stub.request)
  /\ exists elem,
      FindElement "//Invoice" stub.request = Some elem
      /\ FindElement "//Invoice"
           (update 1 (saved "04223cb3" "4f329fa3") stub.request) = Some elem
      /\ List.length (update 1 (saved "04223cb3" "4f329fa3") stub.request)
         = List.length stub.request
      /\ (forall q, q <> elem ->
            load (update 1 (saved "04223cb3" "4f329fa3") stub.request) q
            = load stub.request q)
      /\ ESpace (load (update 1 (saved "04223cb3" "4f329fa3") stub.request) elem)
         = ESpace (load stub.request elem)
      /\ Tag (load (update 1 (saved "04223cb3" "4f329fa3") stub.request) elem)
         = Tag (load stub.request elem)
      /\ filter not_a_code
           (Attrs (load (update 1 (saved "04223cb3" "4f329fa3") stub.request) elem))
         = filter not_a_code (Attrs (load stub.request elem)).
Proof.
  assert (H : embed "04223cb3" "4f329fa3" stub.request
              = Some (update 1 (saved "04223cb3" "4f329fa3") stub.request))
    by (vm_compute; reflexivity).
  split; [exact H |]. exact (@embed_frame _ _ _ _ H).
Defined.

Lemma embed_sets_codes_witness :
  embed "04223cb3" "4f329fa3" stub.request
  = Some (update 1 (saved "04223cb3" "4f329fa3") stub.request)
  /\ exists elem,
      FindElement "//Invoice"
        (update 1 (saved "04223cb3" "4f329fa3") stub.request) = Some elem
      /\ find (same_name "" "IIC")
           (Attrs (load (update 1 (saved "04223cb3" "4f329fa3") stub.request) elem))
         = Some (mkAttr "" "IIC" "04223cb3")
      /\ find (same_name "" "IICSignature")
           (Attrs (load (update 1 (saved "04223cb3" "4f329fa3") stub.request) elem))
         = Some (mkAttr "" "IICSignature" "4f329fa3").
Proof.
  assert (H : embed "04223cb3" "4f329fa3" stub.request
              = Some (update 1 (saved "04223cb3" "4f329fa3") stub.request))
    by (vm_compute; reflexivity).
  split; [exact H |]. exact (@embed_sets_codes _ _ _ _ H).
Defined.

Lemma parse_embed_witness :
  embed "04223cb3" "4f329fa3" stub.request
  = Some (update 1 (saved "04223cb3" "4f329fa3") stub.request)
  /\ parse (update 1 (saved "04223cb3" "4f329fa3") stub.request)
     = parse stub.request.
Proof.
  assert (H : embed "04223cb3" "4f329fa3" stub.request
              = Some (update 1 (saved "04223cb3" "4f329fa3") stub.request))
    by (vm_compute; reflexivity).
  split; [exact H |]. exact (@parse_embed _ _ _ _ H).
Defined.

Lemma WriteIIC_success_witness :
  safenet.SignPKCS1v15 (sha256IIC stub.fields) (stub.mkDevice true false 1)
  = (stub.mkDevice true false 1, (rev (sha256IIC stub.fields), None))
  /\ fst (WriteIIC stub.params
            (stub.world stub.ready (stub.holding stub.request)))
     = Returns None.
Proof.
  assert (Hs : safenet.SignPKCS1v15 (sha256IIC stub.fields)
                 (stub.mkDevice true false 1)
               = (stub.mkDevice true false 1, (rev (sha256IIC stub.fields), None)))
    by reflexivity.
  assert (Hr : docio.ReadFromFile (InFile stub.params)
                 (disk (stub.world stub.ready (stub.holding stub.request)))
               = (stub.request, None)) by reflexivity.
  assert (Hp : parse stub.request = (stub.fields, None))
    by (vm_compute; reflexivity).
  assert (Hi : safenet.Initialize (SafenetConfig stub.params)
                 (device (stub.world stub.ready (stub.holding stub.request)))
               = (stub.mkDevice true false 1, None)) by reflexivity.
  destruct (WriteIIC_success _ _ Hr Hp Hi Hs) as (elem & doc1 & _ & _ & _ & _ & Hw).
  split; [exact Hs |]. rewrite Hw. reflexivity.
Defined.

Lemma WriteIIC_nil_means_saved_witness :
  fst (WriteIIC stub.params (stub.world stub.ready (stub.holding stub.request)))
  = Returns None
  /\ exists doc parsed (sig : bytes) doc1,
      docio.ReadFromFile (InFile stub.params)
        (disk (stub.world stub.ready (stub.holding stub.request)))
      = (doc, None)
      /\ parse doc = (parsed, None)
      /\ snd (safenet.Initialize (SafenetConfig stub.params)
                (device (stub.world stub.ready (stub.holding stub.request))))
         = None
      /\ snd (safenet.SignPKCS1v15 (sha256IIC parsed)
                (fst (safenet.Initialize (SafenetConfig stub.params)
                        (device (stub.world stub.ready
                                   (stub.holding stub.request))))))
         = (sig, None)
      /\ embed (hex.EncodeToString (md5.Sum sig)) (hex.EncodeToString sig) doc
         = Some doc1
      /\ docio.WriteToFile (OutFile stub.params) doc1
           (disk (stub.world stub.ready (stub.holding stub.request)))
         = (disk (snd (WriteIIC stub.params
                         (stub.world stub.ready (stub.holding stub.request)))),
            None).
Proof.
  assert (H : fst (WriteIIC stub.params
                     (stub.world stub.ready (stub.holding stub.request)))
              = Returns None) by (vm_compute; reflexivity).
  split; [exact H |].
  exact (WriteIIC_nil_means_saved stub.params
           (stub.world stub.ready (stub.holding stub.request)) H).
Defined.

Lemma plainIIC_injective_witness :
  delimiter_free stub.fields = true
  /\ delimiter_free (mkArray7 "123456789" "2023-01-01T10:00:00" "1" "BU1" "TCR1"
                              "SC1" "100.00") = true
  /\ stub.fields
     = mkArray7 "123456789" "2023-01-01T10:00:00" "1" "BU1" "TCR1" "SC1" "100.00".
Proof.
  assert (H : delimiter_free stub.fields = true) by reflexivity.
  split; [exact H |]. split; [exact H |].
  exact (plainIIC_injective stub.fields
           (mkArray7 "123456789" "2023-01-01T10:00:00" "1" "BU1" "TCR1" "SC1"
                     "100.00") H H eq_refl).
Defined.

Lemma parse_first_match_witness :
  parse stub.request = (stub.fields, None)
  /\ parse (stub.request ++ [etree.mkElement "" "Invoice" []; stub.seller])%list
     = (stub.fields, None).
Proof.
  assert (H : parse stub.request = (stub.fields, None))
    by (vm_compute; reflexivity).
  split; [exact H |].
  exact (@parse_first_match stub.request
           [etree.mkElement "" "Invoice" []; stub.seller] stub.fields H).
Defined.

Lemma GenerateIIC_error_no_values_witness :
  fst (GenerateIIC tt stub.fields (stub.world stub.key_locked []))
  = ("", "", Some "device locked")
  /\ "" = "" /\ "" = "".
Proof.
  assert (H : fst (GenerateIIC tt stub.fields (stub.world stub.key_locked []))
              = ("", "", Some "device locked")) by (vm_compute; reflexivity).
  split; [exact H |].
  exact (GenerateIIC_error_no_values tt stub.fields
           (stub.world stub.key_locked []) H).
Defined.
End MoreRuns.
